(** * Tiling and stitching of images: a model of [img_utils.py]

    The module splits a raster into rectangular crops placed on a grid and
    recombines crops into one raster by blending them one after the other
    into an integer buffer.  Modelled here are the placement of the crops
    ([_gridCropCorners]), the cropping ([gridCrop]), the two recombinations
    ([stitchCrops], [stitchBinary]) and, of [plot_utils.py], [grid_imshow].

    Conventions of the model.
    - The code is Python 2: [range] returns a list, which [_gridCropCorners]
      extends with [append].  Python integers are unbounded, hence [Z].
    - Exceptions are values of [exn]; a computation that can raise returns
      a [result].  Code that also warns runs in the monad [M], which
      threads the warnings shown so far.
    - [dtype=int] is the C long of the platform, 32 or 64 bits wide
      ([Np.c_long]); the functions that allocate the buffer take the
      platform as a parameter.  Sums in the buffer wrap around at that
      width, and [Image.fromarray] accepts the buffer of 32-bit integers
      only.
    - A PIL image is a record of its mode, its size (width, height) and its
      samples, row by row, as [numpy.asarray] delivers them.  Only the
      single-band integer modes are modelled ('1', 'L', 'P' and 'I'); their
      samples are at most 32 bits wide, so that the floating-point mean of
      a sum is exact.
    - A two-dimensional numpy array is a record of its shape (rows, columns)
      and its rows.  Basic slicing, broadcasting of a binary operation and
      assignment to a slice follow numpy, including what they do for
      negative and out-of-range slice bounds. *)

From Stdlib Require Import ZArith QArith List Bool String Lia Arith.
From Stdlib Require FinFun Permutation.
Import ListNotations.

Local Open Scope Z_scope.

(* ------------------------------------------------------------------ *)
(** * Exceptions and results *)

Inductive exn : Type :=
| IndexError      (* [crop_imgs[0]] on an empty list *)
| AssertionError  (* a failed [assert] *)
| ValueError      (* [range] with step 0; numpy shape mismatch *)
| TypeError       (* indexing an integer; an array PIL has no mode for *)
| AttributeError. (* an attribute the object does not have *)

Inductive result (A : Type) : Type :=
| Ok (a : A)
| Raise (e : exn).

Arguments Ok {A} a.
Arguments Raise {A} e.

Definition rbind {A B} (r : result A) (k : A -> result B) : result B :=
  match r with
  | Ok a => k a
  | Raise e => Raise e
  end.

Declare Scope result_scope.
Delimit Scope result_scope with result.
Notation "x <- r ;; k" := (rbind r (fun x => k))
  (at level 61, r at next level, right associativity) : result_scope.

(* ------------------------------------------------------------------ *)
(** * The builtin [range] *)

Module PyRange.

(** Number of elements of [range(start, stop, step)], as CPython computes
    it ([get_len_of_range]); [step] is not 0 here. *)
Definition range_len (start stop step : Z) : nat :=
  if (0 <? step) && (start <? stop) then
    Z.to_nat (1 + (stop - 1 - start) / step)
  else if (step <? 0) && (stop <? start) then
    Z.to_nat (1 + (start - 1 - stop) / (- step))
  else 0%nat.

(** [range(start, stop, step)]: a list in Python 2; step 0 raises
    [ValueError]. *)
Definition range (start stop step : Z) : result (list Z) :=
  if step =? 0 then Raise ValueError
  else Ok (map (fun i => start + Z.of_nat i * step)
               (seq 0 (range_len start stop step))).

End PyRange.

(* ------------------------------------------------------------------ *)
(** * Corner generation *)

(** [_gridCropCorners(im_dims, crop_size, stride_size=None,
    include_excess=True)].  The three arguments are pairs, so the
    assertion on their lengths holds by typing.  The nested loops append
    [(c, r)] for [c] in [c_indices] (outer) and [r] in [r_indices]
    (inner). *)
Definition _gridCropCorners (im_dims crop_size : Z * Z)
    (stride_size : option (Z * Z)) (include_excess : bool)
  : result (list (Z * Z)) :=
  let stride_size :=
    match stride_size with None => crop_size | Some s => s end in
  (c_indices <- PyRange.range 0 (fst im_dims - fst crop_size) (fst stride_size) ;;
   r_indices <- PyRange.range 0 (snd im_dims - snd crop_size) (snd stride_size) ;;
   let c_indices :=
     if include_excess then c_indices ++ [fst im_dims - fst crop_size]
     else c_indices in
   let r_indices :=
     if include_excess then r_indices ++ [snd im_dims - snd crop_size]
     else r_indices in
   Ok (flat_map (fun c => map (fun r => (c, r)) r_indices) c_indices))%result.

(** The footprint of a tile of size [tsize] placed at [corner]: the
    half-open rectangle [corner, corner + tsize). *)
Definition in_footprint (corner tsize : Z * Z) (x y : Z) : Prop :=
  fst corner <= x < fst corner + fst tsize /\
  snd corner <= y < snd corner + snd tsize.

(** The footprints of the tiles at [corners] cover the raster exactly. *)
Definition covers_raster (im_dims crop_size : Z * Z)
    (corners : list (Z * Z)) : Prop :=
  forall x y,
    (0 <= x < fst im_dims /\ 0 <= y < snd im_dims)
    <-> exists corner, In corner corners /\ in_footprint corner crop_size x y.

(* ------------------------------------------------------------------ *)
(** * Two-dimensional numpy arrays *)

Module Np.

(** The width of the C long, which is what [dtype=int] denotes. *)
Inductive c_long : Type := Long32 | Long64.

Definition bits (p : c_long) : Z :=
  match p with Long32 => 32 | Long64 => 64 end.

(** The signed integer of [bits p] bits that is congruent to [z]: what
    an arithmetic operation on integers of that width stores. *)
Definition wrap (p : c_long) (z : Z) : Z :=
  (z + 2 ^ (bits p - 1)) mod 2 ^ bits p - 2 ^ (bits p - 1).

Record ndarray (A : Type) : Type := mk_ndarray {
  shape : nat * nat;          (* (rows, columns) *)
  data : list (list A)
}.

Arguments mk_ndarray {A} shape data.
Arguments shape {A} n.
Arguments data {A} n.

Definition tabulate {A} (n : nat) (f : nat -> A) : list A :=
  map f (seq 0 n).

(** The array of shape [sh] whose element [(i, j)] is [f i j]. *)
Definition build {A} (sh : nat * nat) (f : nat -> nat -> A) : ndarray A :=
  mk_ndarray sh (tabulate (fst sh) (fun i => tabulate (snd sh) (f i))).

(** Element [(i, j)]; [d] is returned outside the shape only. *)
Definition get {A} (d : A) (a : ndarray A) (i j : nat) : A :=
  nth j (nth i (data a) []) d.

(** [np.zeros((rows, cols), dtype=int)]. *)
Definition zeros (sh : Z * Z) : result (ndarray Z) :=
  if (fst sh <? 0) || (snd sh <? 0) then Raise ValueError
  else Ok (build (Z.to_nat (fst sh), Z.to_nat (snd sh)) (fun _ _ => 0)).

(** A slice bound [i] on an axis of length [n]: a negative bound counts
    from the end, and every bound is clipped to [0, n]. *)
Definition adjust (n : nat) (i : Z) : nat :=
  if i <? 0 then Z.to_nat (Z.max 0 (i + Z.of_nat n))
  else Z.to_nat (Z.min i (Z.of_nat n)).

(** First index and length of the slice [start:stop] of an axis of
    length [n]. *)
Definition slice_range (n : nat) (start stop : Z) : nat * nat :=
  let lo := adjust n start in
  let hi := adjust n stop in
  (lo, (hi - lo)%nat).

(** [a[r0:r1, c0:c1]] for [idxs = (r0, r1, c0, c1)]. *)
Definition getslice {A} (d : A) (a : ndarray A) (idxs : Z * Z * Z * Z)
  : ndarray A :=
  let '(r0, r1, c0, c1) := idxs in
  let '(rlo, rlen) := slice_range (fst (shape a)) r0 r1 in
  let '(clo, clen) := slice_range (snd (shape a)) c0 c1 in
  build (rlen, clen) (fun i j => get d a (rlo + i) (clo + j)).

(** Broadcasting of two axis lengths: equal, or one of them is 1. *)
Definition bdim (m n : nat) : option nat :=
  if (m =? n)%nat then Some m
  else if (m =? 1)%nat then Some n
  else if (n =? 1)%nat then Some m
  else None.

(** The index read on an axis of length [n] that is broadcast. *)
Definition bidx (n i : nat) : nat := if (n =? 1)%nat then 0%nat else i.

(** An elementwise binary operation, with broadcasting. *)
Definition broadcast2 {A B C} (da : A) (db : B) (f : A -> B -> C)
    (a : ndarray A) (b : ndarray B) : result (ndarray C) :=
  match bdim (fst (shape a)) (fst (shape b)),
        bdim (snd (shape a)) (snd (shape b)) with
  | Some r, Some c =>
      Ok (build (r, c) (fun i j =>
            f (get da a (bidx (fst (shape a)) i) (bidx (snd (shape a)) j))
              (get db b (bidx (fst (shape b)) i) (bidx (snd (shape b)) j))))
  | _, _ => Raise ValueError
  end.

Definition map_array {A B} (d : A) (f : A -> B) (a : ndarray A) : ndarray B :=
  build (shape a) (fun i j => f (get d a i j)).

(** An axis of length [m] can be stored into one of length [n]. *)
Definition fits (m n : nat) : bool := ((m =? n) || (m =? 1))%nat.

(** [a[r0:r1, c0:c1] = v] on an integer array [a]; the elements of [v]
    are converted by [cast].  The array is updated in place in the source;
    here the updated array is returned. *)
Definition assign {A} (cast : A -> Z) (d : A) (a : ndarray Z)
    (idxs : Z * Z * Z * Z) (v : ndarray A) : result (ndarray Z) :=
  let '(r0, r1, c0, c1) := idxs in
  let '(rlo, rlen) := slice_range (fst (shape a)) r0 r1 in
  let '(clo, clen) := slice_range (snd (shape a)) c0 c1 in
  if fits (fst (shape v)) rlen && fits (snd (shape v)) clen then
    Ok (build (shape a) (fun i j =>
          if ((rlo <=? i) && (i <? rlo + rlen) &&
              (clo <=? j) && (j <? clo + clen))%nat
          then cast (get d v (bidx (fst (shape v)) (i - rlo))
                             (bidx (snd (shape v)) (j - clo)))
          else get 0 a i j))
  else Raise ValueError.

(** Conversion of a float to an integer on assignment: truncation
    towards zero. *)
Definition trunc (q : Q) : Z := Z.quot (Qnum q) (Zpos (Qden q)).

(** The value of an expression: an integer or a floating-point array. *)
Inductive array : Type :=
| IntArray (a : ndarray Z)
| FloatArray (a : ndarray Q).

Definition setitem (a : ndarray Z) (idxs : Z * Z * Z * Z) (v : array)
  : result (ndarray Z) :=
  match v with
  | IntArray v => assign (fun z => z) 0 a idxs v
  | FloatArray v => assign trunc 0%Q a idxs v
  end.

Definition bitwise_or (a b : ndarray Z) : result array :=
  (r <- broadcast2 0 0 Z.lor a b ;; Ok (IntArray r))%result.

Definition bitwise_and (a b : ndarray Z) : result array :=
  (r <- broadcast2 0 0 Z.land a b ;; Ok (IntArray r))%result.

(** [(a + b) / 2.0] where [a] is an array of C longs and [b] an array of
    integers that are not wider: the sum is an array of C longs, and the
    division makes it an array of floats. *)
Definition mean2 (p : c_long) (a b : ndarray Z) : result array :=
  (s <- broadcast2 0 0 (fun x y => wrap p (x + y)) a b ;;
   Ok (FloatArray (map_array 0 (fun z => (inject_Z z / 2)%Q) s)))%result.

(** [a.astype(bool)]: an element is [True] when it is not 0. *)
Definition astype_bool (a : ndarray Z) : ndarray bool :=
  map_array 0 (fun z => negb (z =? 0)) a.

(** [np.array_equal(a, b)] for an integer and a boolean array: the
    shapes are the same and so are the elements, [True] being 1 and
    [False] 0. *)
Definition array_equal (a : ndarray Z) (b : ndarray bool) : bool :=
  (fst (shape a) =? fst (shape b))%nat &&
  (snd (shape a) =? snd (shape b))%nat &&
  forallb (fun i =>
     forallb (fun j => get 0 a i j =? (if get false b i j then 1 else 0))
             (seq 0 (snd (shape a))))
    (seq 0 (fst (shape a))).

End Np.

(* ------------------------------------------------------------------ *)
(** * Warnings *)

(** A [UserWarning] with its text and the line that issued it. *)
Inductive warning : Type :=
| UserWarning (msg : string) (lineno : Z).

Definition warning_eqb (a b : warning) : bool :=
  match a, b with
  | UserWarning m l, UserWarning m' l' => (m =? m')%string && (l =? l')
  end.

(** Computations that may raise and may warn: the warnings shown so far
    in the process are threaded through, and survive an exception. *)
Definition M (A : Type) : Type := list warning -> list warning * result A.

Definition ret {A} (a : A) : M A := fun ws => (ws, Ok a).

Definition bind {A B} (m : M A) (k : A -> M B) : M B :=
  fun ws =>
    match m ws with
    | (ws', Ok a) => k a ws'
    | (ws', Raise e) => (ws', Raise e)
    end.

Definition lift {A} (r : result A) : M A := fun ws => (ws, r).

(** [warnings.warn(msg, UserWarning)] at line [lineno], under the default
    filters: a text is shown the first time a line issues it and not
    again, for the registry of the module remembers it. *)
Definition warn (msg : string) (lineno : Z) : M unit :=
  fun ws =>
    if existsb (warning_eqb (UserWarning msg lineno)) ws then (ws, Ok tt)
    else (ws ++ [UserWarning msg lineno], Ok tt).

(** A call in a process that has shown no warning yet. *)
Definition run {A} (m : M A) : list warning * result A := m [].

Declare Scope monad_scope.
Delimit Scope monad_scope with monad.
Notation "x <- m ;; k" := (bind m (fun x => k))
  (at level 61, m at next level, right associativity) : monad_scope.

(** [for a in l: s = body(s, a)]. *)
Fixpoint for_each {A St} (body : St -> A -> M St) (l : list A) (s : St)
  : M St :=
  match l with
  | [] => ret s
  | a :: l' => (s' <- body s a ;; for_each body l' s')%monad
  end.

(* ------------------------------------------------------------------ *)
(** * Images and crops *)

(** The single-band integer modes of PIL: '1' (samples 0 and 1), 'L' and
    'P' (8 bits), 'I' (32 bits, signed). *)
Inductive pil_mode : Type := mode_1 | mode_L | mode_P | mode_I.

Definition pil_mode_eqb (a b : pil_mode) : bool :=
  match a, b with
  | mode_1, mode_1 | mode_L, mode_L | mode_P, mode_P | mode_I, mode_I => true
  | _, _ => false
  end.

(** A PIL image of one of these modes.  [size] is (width, height);
    [pixels] holds the samples row by row. *)
Record Image : Type := mk_Image {
  mode : pil_mode;
  size : nat * nat;
  pixels : list (list Z)
}.

(** The dict [{'img': ..., 'corner': ...}] as [gridCrop] makes it and as
    [stitchCrops] reads it: ['img'] is a PIL image, whose [mode] and
    [size] are read; [corner] is (x, y). *)
Record Crop : Type := mk_Crop {
  img : Image;
  corner : Z * Z
}.

(** A PIL image has as many rows as its height and as many samples in
    each row as its width.  The properties below do not depend on it: a
    sample read outside the rows is 0 in the model, and never read on an
    image of this form. *)
Definition wf_image (im : Image) : bool :=
  (List.length (pixels im) =? snd (size im))%nat &&
  forallb (fun row => (List.length row =? fst (size im))%nat) (pixels im).

(** [np.asarray(img)]: shape (height, width). *)
Definition asarray (im : Image) : Np.ndarray Z :=
  Np.mk_ndarray (snd (size im), fst (size im)) (pixels im).

(** What the code leaves to the platform it runs on: the width of the C
    long, and whether the release of PIL at hand makes an image of a
    raster without pixels (early releases refuse it with [ValueError]). *)
Record platform : Type := mk_platform {
  np_int : Np.c_long;
  pil_empty_image : bool
}.

(** [Image.fromarray(a)] on the integer buffer.  PIL has no mode for an
    array of 64-bit integers and raises [TypeError].  An array of 32-bit
    integers becomes an image of mode 'I' that keeps its shape and its
    samples; one without elements does so where the release of PIL takes
    it, and raises [ValueError] elsewhere. *)
Definition fromarray (pf : platform) (a : Np.ndarray Z) : result Image :=
  match np_int pf with
  | Np.Long64 => Raise TypeError
  | Np.Long32 =>
      if ((fst (Np.shape a) =? 0) || (snd (Np.shape a) =? 0))%nat
         && negb (pil_empty_image pf)
      then Raise ValueError
      else Ok (mk_Image mode_I (snd (Np.shape a), fst (Np.shape a))
                        (Np.data a))
  end.

(* ------------------------------------------------------------------ *)
(** * Stitching *)

(** The loop of the mode check: [assert(crop['img'].mode == mode)]. *)
Fixpoint check_modes (mode0 : pil_mode) (crop_imgs : list Crop)
  : result unit :=
  match crop_imgs with
  | [] => Ok tt
  | crop :: rest =>
      if pil_mode_eqb (mode (img crop)) mode0 then check_modes mode0 rest
      else Raise AssertionError
  end.

(** One round of the loop that finds the dimensions; the state is
    [(max_dims, max_corner)]. *)
Definition dims_step (st : (Z * Z) * (Z * Z)) (crop : Crop)
  : (Z * Z) * (Z * Z) :=
  let '(max_dims, max_corner) := st in
  let max_dims :=
    if Z.of_nat (fst (size (img crop))) >? fst max_dims
    then (Z.of_nat (fst (size (img crop))), snd max_dims) else max_dims in
  let max_dims :=
    if Z.of_nat (snd (size (img crop))) >? snd max_dims
    then (fst max_dims, Z.of_nat (snd (size (img crop)))) else max_dims in
  let max_corner :=
    if fst (corner crop) >? fst max_corner
    then (fst (corner crop), snd max_corner) else max_corner in
  let max_corner :=
    if snd (corner crop) >? snd max_corner
    then (fst max_corner, snd (corner crop)) else max_corner in
  (max_dims, max_corner).

(** "find dimensions of original image": [img_dims], (width, height). *)
Definition find_dims (crop_imgs : list Crop) : Z * Z :=
  let '(max_dims, max_corner) :=
    fold_left dims_step crop_imgs ((0, 0), (0, 0)) in
  (fst max_corner + fst max_dims, snd max_corner + snd max_dims).

(** The slice bounds [idxs] of a crop: (row, row end, column, column end). *)
Definition crop_idxs (crop : Crop) : Z * Z * Z * Z :=
  (snd (corner crop), snd (corner crop) + Z.of_nat (snd (size (img crop))),
   fst (corner crop), fst (corner crop) + Z.of_nat (fst (size (img crop)))).

Definition invalid_method_msg (method : string) : string :=
  ("Invalid method. Reverting to 'average'. Your method: " ++ method)%string.

(** The body of the loop "stitch image into numpy array", for a buffer of
    C longs of width [p]; [lineno] is the line of its call to
    [warnings.warn].  The same lines appear in [stitchCrops] and in
    [stitchBinary]. *)
Definition stitch_crop (p : Np.c_long) (lineno : Z) (method : string)
    (img_np : Np.ndarray Z) (crop : Crop) : M (Np.ndarray Z) :=
  let idxs := crop_idxs crop in
  let img_section := Np.getslice 0 img_np idxs in
  let crop_np := asarray (img crop) in
  (crop_merged <-
     (if (method =? "or")%string then
        lift (Np.bitwise_or img_section crop_np)
      else if (method =? "and")%string then
        lift (Np.bitwise_and img_section crop_np)
      else if (method =? "average")%string then
        lift (Np.mean2 p img_section crop_np)
      else
        (_ <- warn (invalid_method_msg method) lineno ;;
         lift (Np.mean2 p img_section crop_np))) ;;
   lift (Np.setitem img_np idxs crop_merged))%monad.

(** Lines 82 to 128 of [stitchCrops]: the array [img_np] when the loop
    "stitch image into numpy array" ends. *)
Definition stitch_array (p : Np.c_long) (crop_imgs : list Crop)
    (method : string) : M (Np.ndarray Z) :=
  (first <- lift (match crop_imgs with
                  | [] => Raise IndexError
                  | crop :: _ => Ok crop
                  end) ;;
   let mode0 := mode (img first) in
   _ <- lift (check_modes mode0 crop_imgs) ;;
   let img_dims := find_dims crop_imgs in
   img_np <- lift (Np.zeros (snd img_dims, fst img_dims)) ;;
   for_each (stitch_crop p 124 method) crop_imgs img_np)%monad.

(** [stitchCrops(crop_imgs, method='average')] on the platform [pf]: the
    array is built, then converted (lines 131 to 133). *)
Definition stitchCrops (pf : platform) (crop_imgs : list Crop)
    (method : string) : M Image :=
  (img_np <- stitch_array (np_int pf) crop_imgs method ;;
   lift (fromarray pf img_np))%monad.

(* ------------------------------------------------------------------ *)
(** * Stitching of binary images *)

(** What [crop['img']] may be: the docstrings ask for a numpy array, and
    the code reads attributes of a PIL image. *)
Inductive pyimg : Type :=
| PILImage (im : Image)
| NdArray (a : Np.ndarray Z).

Record ObjCrop : Type := mk_ObjCrop {
  obj : pyimg;
  obj_corner : Z * Z
}.

(** [o.astype(bool)]: a method of arrays; a PIL image has none of that
    name. *)
Definition obj_astype_bool (o : pyimg) : result (Np.ndarray bool) :=
  match o with
  | NdArray a => Ok (Np.astype_bool a)
  | PILImage _ => Raise AttributeError
  end.

(** The array numpy makes of [o] when it is an argument of a numpy
    function. *)
Definition obj_asarray (o : pyimg) : Np.ndarray Z :=
  match o with
  | NdArray a => a
  | PILImage im => asarray im
  end.

(** The crop as the lines that read [crop['img'].size[0]] and
    [crop['img'].size[1]] see it: [size] is a pair on a PIL image and an
    integer on an array, which cannot be indexed. *)
Definition sized_crop (crop : ObjCrop) : result Crop :=
  match obj crop with
  | PILImage im => Ok (mk_Crop im (obj_corner crop))
  | NdArray _ => Raise TypeError
  end.

(** The loop "check that all crops are binary numpy arrays".  The source
    has the test and nothing under it: neither branch does anything. *)
Fixpoint check_binary (crop_imgs : list ObjCrop) : result unit :=
  match crop_imgs with
  | [] => Ok tt
  | crop :: rest =>
      (as_bool <- obj_astype_bool (obj crop) ;;
       if negb (Np.array_equal (obj_asarray (obj crop)) as_bool)
       then check_binary rest
       else check_binary rest)%result
  end.

(** The loop that finds the dimensions, in [stitchBinary]. *)
Fixpoint binary_dims (st : (Z * Z) * (Z * Z)) (crop_imgs : list ObjCrop)
  : result ((Z * Z) * (Z * Z)) :=
  match crop_imgs with
  | [] => Ok st
  | crop :: rest =>
      (c <- sized_crop crop ;; binary_dims (dims_step st c) rest)%result
  end.

(** [stitchBinary(crop_imgs, method='average')] on the platform [pf]. *)
Definition stitchBinary (pf : platform) (crop_imgs : list ObjCrop)
    (method : string) : M Image :=
  (_ <- lift (check_binary crop_imgs) ;;
   dims <- lift (binary_dims ((0, 0), (0, 0)) crop_imgs) ;;
   let '(max_dims, max_corner) := dims in
   let img_dims :=
     (fst max_corner + fst max_dims, snd max_corner + snd max_dims) in
   img_np <- lift (Np.zeros (snd img_dims, fst img_dims)) ;;
   img_np <- for_each (fun img_np crop =>
                         c <- lift (sized_crop crop) ;;
                         stitch_crop (np_int pf) 192 method img_np c)
                      crop_imgs img_np ;;
   lift (fromarray pf img_np))%monad.

(* ------------------------------------------------------------------ *)
(** * Notions used to state the properties *)

(** The sample of an image at column [x], row [y]. *)
Definition pixel (im : Image) (x y : nat) : Z :=
  Np.get 0 (asarray im) y x.

(** Pixel [(x, y)] of the output lies in the footprint of [crop]. *)
Definition covers (x y : nat) (crop : Crop) : bool :=
  (fst (corner crop) <=? Z.of_nat x) &&
  (Z.of_nat x <? fst (corner crop) + Z.of_nat (fst (size (img crop)))) &&
  (snd (corner crop) <=? Z.of_nat y) &&
  (Z.of_nat y <? snd (corner crop) + Z.of_nat (snd (size (img crop)))).

(** The sample that [crop] brings to pixel [(x, y)] of the output. *)
Definition sample (x y : nat) (crop : Crop) : Z :=
  pixel (img crop) (Z.to_nat (Z.of_nat x - fst (corner crop)))
                   (Z.to_nat (Z.of_nat y - snd (corner crop))).




(** What one round of the loop stores for a pixel holding [existing]
    when the crop brings [incoming]. *)
Definition blend_px (p : Np.c_long) (method : string)
    (existing incoming : Z) : Z :=
  if (method =? "or")%string then Z.lor existing incoming
  else if (method =? "and")%string then Z.land existing incoming
  else Np.trunc (inject_Z (Np.wrap p (existing + incoming)) / 2)%Q.

(** The name is one of the three the dispatch knows. *)
Definition known_method (method : string) : bool :=
  ((method =? "or") || (method =? "and") || (method =? "average"))%string.

(** The warnings shown after a round of the loop whose call to
    [warnings.warn] is at line [lineno], when [ws] were shown before. *)
Definition round_log (lineno : Z) (method : string) (ws : list warning)
  : list warning :=
  if known_method method then ws
  else if existsb (warning_eqb
                     (UserWarning (invalid_method_msg method) lineno)) ws
       then ws
       else ws ++ [UserWarning (invalid_method_msg method) lineno].

(** The warnings a call of [stitchCrops] that reaches its loop shows in
    a process that has shown none. *)
Definition method_warnings (method : string) : list warning :=
  round_log 124 method [].

(** The crop holds a PIL image. *)
Definition is_pil_image (crop : ObjCrop) : bool :=
  match obj crop with
  | PILImage _ => true
  | NdArray _ => false
  end.

(** The largest element of a list of integers, and 0 for none or when
    all are negative, as the loops of [find_dims] compute it. *)
Definition max_of (l : list Z) : Z := fold_right Z.max 0 l.

Definition crop_x (c : Crop) : Z := fst (corner c).
Definition crop_y (c : Crop) : Z := snd (corner c).
Definition crop_w (c : Crop) : Z := Z.of_nat (fst (size (img c))).
Definition crop_h (c : Crop) : Z := Z.of_nat (snd (size (img c))).

(** Corners that are not negative. *)
Definition corners_ok (crop_imgs : list Crop) : Prop :=
  Forall (fun c => 0 <= crop_x c /\ 0 <= crop_y c) crop_imgs.

(** All crops have the mode of the first one. *)
Definition same_mode (crop_imgs : list Crop) : Prop :=
  match crop_imgs with
  | [] => True
  | c :: _ => Forall (fun c' => mode (img c') = mode (img c)) crop_imgs
  end.

(** An array is in normal form when its rows are those its shape and its
    elements determine; every array that [Np.build] returns is. *)
Definition normal (a : Np.ndarray Z) : Prop :=
  a = Np.build (Np.shape a) (Np.get 0 a).

(** The footprint of [crop] lies within the array [img_np]. *)
Definition crop_fits (img_np : Np.ndarray Z) (crop : Crop) : Prop :=
  0 <= crop_x crop /\
  crop_x crop + crop_w crop <= Z.of_nat (snd (Np.shape img_np)) /\
  0 <= crop_y crop /\
  crop_y crop + crop_h crop <= Z.of_nat (fst (Np.shape img_np)).

(** What a round of a loop leaves at pixel [(x, y)] that held [acc], when
    covered pixels are combined by [bl]. *)
Definition px_step (bl : Z -> Z -> Z) (x y : nat) (acc : Z) (crop : Crop) : Z :=
  if covers x y crop then bl acc (sample x y crop) else acc.

(** The shape of the buffer [stitchCrops] allocates: (rows, columns). *)
Definition buffer_shape (crop_imgs : list Crop) : nat * nat :=
  (Z.to_nat (snd (find_dims crop_imgs)), Z.to_nat (fst (find_dims crop_imgs))).

(** Every sample of the crop is an unsigned integer of [n] bits. *)
Definition samples_below (n : Z) (c : Crop) : Prop :=
  Forall (Forall (fun v => 0 <= v < 2 ^ n)) (pixels (img c)).

(* ------------------------------------------------------------------ *)
(** * Cropping *)

Module PIL.

(** [img.crop(box)] for [box = (x0, y0, x1, y1)], that is (left, upper,
    right, lower): an image of
    the mode of [img] and of size (x1 - x0, y1 - y0) holding
    the samples of that region; where the region leaves the image the
    samples are 0, and a box whose right or lower edge comes before its
    left or upper edge gives an empty image. *)
Definition crop (im : Image) (box : Z * Z * Z * Z) : Image :=
  let '(x0, y0, x1, y1) := box in
  let w := Z.to_nat (x1 - x0) in
  let h := Z.to_nat (y1 - y0) in
  mk_Image (mode im) (w, h)
    (Np.tabulate h (fun i => Np.tabulate w (fun j =>
       let x := x0 + Z.of_nat j in
       let y := y0 + Z.of_nat i in
       if (0 <=? x) && (x <? Z.of_nat (fst (size im))) &&
          (0 <=? y) && (y <? Z.of_nat (snd (size im)))
       then pixel im (Z.to_nat x) (Z.to_nat y)
       else 0))).

End PIL.

(** [gridCrop(img, crop_dims, stride_size=None, include_excess=True)]:
    one crop dict for each corner, in the order of the corners. *)
Definition gridCrop (img : Image) (crop_dims : Z * Z)
    (stride_size : option (Z * Z)) (include_excess : bool)
  : result (list Crop) :=
  let img_dims := (Z.of_nat (fst (size img)), Z.of_nat (snd (size img))) in
  (crop_corners <-
     _gridCropCorners img_dims crop_dims stride_size include_excess ;;
   Ok (map (fun corner =>
              let box := (fst corner, snd corner,
                          fst corner + fst crop_dims,
                          snd corner + snd crop_dims) in
              mk_Crop (PIL.crop img box) corner)
           crop_corners))%result.

(** The crop dict [gridCrop] makes for a corner. *)
Definition crop_at (im : Image) (crop_dims corner : Z * Z) : Crop :=
  mk_Crop (PIL.crop im (fst corner, snd corner,
                        fst corner + fst crop_dims,
                        snd corner + snd crop_dims)) corner.

(* ------------------------------------------------------------------ *)
(** * Images and crops of the examples *)

(** A platform whose C long has 32 bits, with an early release of PIL,
    and one whose C long has 64 bits. *)
Definition long32 : platform := mk_platform Np.Long32 false.
Definition long64 : platform := mk_platform Np.Long64 true.

Definition img1 (v : Z) : Image := mk_Image mode_L (1%nat, 1%nat) [[v]].
Definition crop31 : Crop :=
  mk_Crop (mk_Image mode_L (3%nat, 1%nat) [[1; 1; 1]]) (0, 0).
Definition crop11 : Crop :=
  mk_Crop (mk_Image mode_L (1%nat, 1%nat) [[1]]) (2, 0).
Definition crop_of_2 : Crop := mk_Crop (img1 2) (0, 0).
Definition crop_of_3 : Crop := mk_Crop (img1 3) (1, 0).

(** A 1 by 1 image of mode 'I', whose samples are signed. *)
Definition img_I (v : Z) : Image := mk_Image mode_I (1%nat, 1%nat) [[v]].

(** Three tiles holding 8 on one pixel. *)
Definition three_of_8 : list Crop :=
  [mk_Crop (img1 8) (0, 0); mk_Crop (img1 8) (0, 0); mk_Crop (img1 8) (0, 0)].

(** A small image for the examples. *)
Definition img_3x2 : Image :=
  mk_Image mode_L (3%nat, 2%nat) [[1; 2; 3]; [4; 5; 6]].

(** The crops of the small image, for tiles of 2 by 2 and stride 1. *)
Definition crops_3x2 : list Crop :=
  map (crop_at img_3x2 (2, 2)) [(0, 0); (1, 0)].

(** Two crops of different modes, for the examples. *)
Definition crop_rgb_like : Crop :=
  mk_Crop (mk_Image mode_1 (1%nat, 1%nat) [[1]]) (1, 0).

(** A tile of width 2 that starts one pixel left of the raster. *)
Definition crop_left : Crop :=
  mk_Crop (mk_Image mode_L (2%nat, 1%nat) [[7; 7]]) (-1, 0).

(** The 1 by 1 array holding [v]. *)
Definition array1 (v : Z) : Np.ndarray Z :=
  Np.mk_ndarray (1%nat, 1%nat) [[v]].

(** Crops for [stitchBinary]: an array holding 2, an array holding 1 and
    a PIL image holding 1. *)
Definition bin_array_2 : ObjCrop := mk_ObjCrop (NdArray (array1 2)) (0, 0).
Definition bin_array_1 : ObjCrop := mk_ObjCrop (NdArray (array1 1)) (0, 0).
Definition bin_image_1 : ObjCrop := mk_ObjCrop (PILImage (img1 1)) (0, 0).

(* ------------------------------------------------------------------ *)
(** * Plotting on a grid ([plot_utils.py]) *)

Module Plt.

(** What the calls to matplotlib leave on the current figure, in the
    order of the calls. *)
Inductive event (A : Type) : Type :=
| Subplot (nrows ncols index : Z)
| Imshow (image : A).

Arguments Subplot {A} nrows ncols index.
Arguments Imshow {A} image.

(** Computations that plot and may raise: the events so far are threaded
    through, and survive an exception. *)
Definition P (A T : Type) : Type :=
  list (event A) -> list (event A) * result T.

Definition ret {A T} (t : T) : P A T := fun log => (log, Ok t).

Definition bind {A T U} (m : P A T) (k : T -> P A U) : P A U :=
  fun log =>
    match m log with
    | (log', Ok t) => k t log'
    | (log', Raise e) => (log', Raise e)
    end.

Definition lift {A T} (r : result T) : P A T := fun log => (log, r).

Definition run {A T} (m : P A T) : list (event A) * result T := m [].

(** [plt.subplot(nrows, ncols, index)]: the numbers of rows and columns
    are positive and the index is one of 1 .. nrows * ncols, or
    [ValueError] is raised. *)
Definition subplot {A} (nrows ncols index : Z) : P A unit :=
  fun log =>
    if (0 <? nrows) && (0 <? ncols) && (1 <=? index) &&
       (index <=? nrows * ncols)
    then (log ++ [Subplot nrows ncols index], Ok tt)
    else (log, Raise ValueError).

(** [plt.imshow(img)]. *)
Definition imshow {A} (image : A) : P A unit :=
  fun log => (log ++ [Imshow image], Ok tt).

(** [l[k]] on a list: a negative index counts from the end, and an index
    outside the list raises [IndexError]. *)
Definition getitem {A} (l : list A) (k : Z) : result A :=
  let k' := if k <? 0 then k + Z.of_nat (List.length l) else k in
  if k' <? 0 then Raise IndexError
  else match nth_error l (Z.to_nat k') with
       | Some a => Ok a
       | None => Raise IndexError
       end.

(** [for x in l: body(x)]. *)
Fixpoint for_in {A T} (l : list T) (body : T -> P A unit) : P A unit :=
  match l with
  | [] => ret tt
  | x :: l' => bind (body x) (fun _ => for_in l' body)
  end.

Declare Scope plot_scope.
Delimit Scope plot_scope with plot.
Notation "x <- m ;; k" := (bind m (fun x => k))
  (at level 61, m at next level, right associativity) : plot_scope.

(** [grid_imshow(grid, imgs_list, imgs2_list)]. *)
Definition grid_imshow {A} (grid : Z * Z) (imgs_list imgs2_list : list A)
  : P A unit :=
  (rs <- lift (PyRange.range 0 (fst grid) 1) ;;
   for_in rs (fun r =>
     cs <- lift (PyRange.range 0 (snd grid) 1) ;;
     for_in cs (fun c =>
       img <- lift (getitem imgs_list (snd grid * r + c)) ;;
       img2 <- lift (getitem imgs2_list (snd grid * r + c)) ;;
       _ <- subplot (2 * fst grid) (snd grid) (2 * r * snd grid + c + 1) ;;
       _ <- imshow img ;;
       _ <- subplot (2 * fst grid) (snd grid)
                    ((2 * r + 1) * snd grid + c + 1) ;;
       imshow img2)))%plot.

(** The four events of the cell in row [i], column [j] of a grid of
    [rows] by [cols] cells. *)
Definition cell_events {A} (rows cols : nat) (d : A)
    (imgs_list imgs2_list : list A) (i j : nat) : list (event A) :=
  [Subplot (2 * Z.of_nat rows) (Z.of_nat cols)
           (2 * Z.of_nat i * Z.of_nat cols + Z.of_nat j + 1);
   Imshow (nth (cols * i + j) imgs_list d);
   Subplot (2 * Z.of_nat rows) (Z.of_nat cols)
           ((2 * Z.of_nat i + 1) * Z.of_nat cols + Z.of_nat j + 1);
   Imshow (nth (cols * i + j) imgs2_list d)].

(** The subplot positions of a log, and the images it shows. *)
Definition positions {A} (log : list (event A)) : list Z :=
  flat_map (fun e => match e with
                     | Subplot _ _ index => [index]
                     | Imshow _ => []
                     end) log.

Definition shown {A} (log : list (event A)) : list A :=
  flat_map (fun e => match e with
                     | Subplot _ _ _ => []
                     | Imshow a => [a]
                     end) log.

End Plt.

(** The events of a cell, when both lists reach it. *)
Definition cell_events_at {A} (rows cols : nat) (imgs_list imgs2_list : list A)
    (i j : nat) : list (Plt.event A) :=
  match nth_error imgs_list (cols * i + j),
        nth_error imgs2_list (cols * i + j) with
  | Some a, Some b =>
      [Plt.Subplot (2 * Z.of_nat rows) (Z.of_nat cols)
                   (2 * Z.of_nat i * Z.of_nat cols + Z.of_nat j + 1);
       Plt.Imshow a;
       Plt.Subplot (2 * Z.of_nat rows) (Z.of_nat cols)
                   ((2 * Z.of_nat i + 1) * Z.of_nat cols + Z.of_nat j + 1);
       Plt.Imshow b]
  | _, _ => []
  end.

(** The pair of images number [k], when both lists hold one. *)
Definition pair_at {A} (imgs_list imgs2_list : list A) (k : nat) : list A :=
  match nth_error imgs_list k, nth_error imgs2_list k with
  | Some a, Some b => [a; b]
  | _, _ => []
  end.

(* ================================================================== *)
(** * Properties *)

(** ** Examples *)

Example corners_10_4 :
  _gridCropCorners (10, 10) (4, 4) None true
  = Ok [(0,0);(0,4);(0,6);(4,0);(4,4);(4,6);(6,0);(6,4);(6,6)].
Proof. reflexivity. Qed.

Example example_crops_well_formed :
  forallb (fun c => wf_image (img c)) [crop31; crop11; crop_of_2; crop_of_3]
  = true.
Proof. reflexivity. Qed.

(* ------------------------------------------------------------------ *)
(** ** [range] *)

Section RangeFacts.

Variables (stop step : Z).
Hypothesis step_pos : 0 < step.

Lemma range_pos_ok :
  PyRange.range 0 stop step
  = Ok (map (fun i => 0 + Z.of_nat i * step)
            (seq 0 (PyRange.range_len 0 stop step))).
Proof.
  unfold PyRange.range.
  destruct (Z.eqb_spec step 0); [lia | reflexivity].
Qed.

(** The elements of [range(0, stop, step)] are the multiples of [step]
    from 0 up to, and not including, [stop]. *)
Lemma in_range_pos (l : list Z) (c : Z) :
  PyRange.range 0 stop step = Ok l ->
  In c l <-> (0 <= c < stop /\ c mod step = 0).
Proof.
  rewrite range_pos_ok. intros E. injection E as <-.
  rewrite in_map_iff. unfold PyRange.range_len.
  destruct (Z.ltb_spec 0 step) as [_ | ?]; [| lia].
  destruct (Z.ltb_spec 0 stop) as [Hs | Hs]; cbn [andb].
  - pose proof (Z.mul_div_le (stop - 1 - 0) step step_pos) as Hq.
    assert (0 <= (stop - 1 - 0) / step) as Hq0
      by (apply Z.div_pos; lia).
    split.
    + intros (i & <- & Hi). apply in_seq in Hi.
      assert (Z.of_nat i <= (stop - 1 - 0) / step) as Hle by lia.
      cbv beta. rewrite Z.mod_mul by lia.
      split; [nia | reflexivity].
    + intros ([Hc0 Hc1] & Hm).
      exists (Z.to_nat (c / step)).
      assert (0 <= c / step) by (apply Z.div_pos; lia).
      assert (c = step * (c / step)) as Hex
        by (apply Z.div_exact; [lia | exact Hm]).
      split; [lia |].
      apply in_seq.
      assert (c / step <= (stop - 1 - 0) / step)
        by (apply Z.div_le_mono; lia).
      lia.
  - assert ((step <? 0) = false) as -> by (apply Z.ltb_ge; lia).
    cbn. split; [intros (i & _ & []) | lia].
Qed.

End RangeFacts.

Lemma range_zero_step (start stop : Z) :
  PyRange.range start stop 0 = Raise ValueError.
Proof. reflexivity. Qed.

Lemma range_total (start stop step : Z) :
  step <> 0 -> exists l, PyRange.range start stop step = Ok l.
Proof.
  intros Hs. unfold PyRange.range.
  destruct (Z.eqb_spec step 0); [contradiction | eauto].
Qed.

(* ------------------------------------------------------------------ *)
(** ** Corner generation *)

Lemma in_corner_product (cs rs : list Z) (c r : Z) :
  In (c, r) (flat_map (fun c => map (fun r => (c, r)) rs) cs)
  <-> In c cs /\ In r rs.
Proof.
  rewrite in_flat_map. split.
  - intros (c' & Hc & Hin). apply in_map_iff in Hin.
    destruct Hin as (r' & E & Hr). injection E as -> ->. tauto.
  - intros [Hc Hr]. exists c. split; [exact Hc |].
    apply in_map_iff. eauto.
Qed.

(** Along one axis: with a stride that is positive and at most the tile
    length, the offsets of the regular progression together with the
    boundary offset cover [0, n) and nothing else. *)
Lemma axis_coverage (n t s : Z) (l : list Z) :
  0 < s <= t -> t <= n ->
  PyRange.range 0 (n - t) s = Ok l ->
  forall x, 0 <= x < n <-> exists c, In c (l ++ [n - t]) /\ c <= x < c + t.
Proof.
  intros Hs Ht Hl x. split.
  - intros Hx. destruct (Z_lt_le_dec x (n - t)) as [Hlt | Hge].
    + exists (s * (x / s)).
      pose proof (Z.mul_div_le x s ltac:(lia)).
      pose proof (Z.mul_succ_div_gt x s ltac:(lia)).
      assert (0 <= x / s) by (apply Z.div_pos; lia).
      split; [| nia].
      apply in_or_app. left.
      apply (in_range_pos (n - t) s ltac:(lia) l _ Hl).
      split; [nia |].
      rewrite Z.mul_comm. apply Z.mod_mul. lia.
    + exists (n - t). split; [| lia].
      apply in_or_app. right. left. reflexivity.
  - intros (c & Hin & Hc). apply in_app_or in Hin.
    destruct Hin as [Hin | [<- | []]]; [| lia].
    apply (in_range_pos (n - t) s ltac:(lia) l _ Hl) in Hin. lia.
Qed.

(** C2, as stated, fails: a stride larger than the tile leaves gaps.  For
    a raster of 10 by 10, tiles of 2 by 2 and a stride of 5 the corners
    are generated, and pixel (3, 3) lies in no footprint. *)
Lemma coverage_fails_for_wide_stride :
  2 <= 10 /\ 0 < 5 /\
  exists corners,
    _gridCropCorners (10, 10) (2, 2) (Some (5, 5)) true = Ok corners /\
    ~ covers_raster (10, 10) (2, 2) corners.
Proof.
  split; [lia |]. split; [lia |].
  eexists. split; [reflexivity |].
  intros Hcov. destruct (proj1 (Hcov 3 3)) as (corner & Hin & Hf);
    [cbn; lia |].
  unfold in_footprint in Hf. cbn in Hin.
  repeat (destruct Hin as [<- | Hin]; [cbn in Hf; lia |]).
  exact Hin.
Qed.

(** C2 (amended): for tile size (tw, th) with tw <= W and th <= H and a
    stride that is positive and not larger than the tile size,
    [_gridCropCorners] with [include_excess] set returns corners whose
    tile footprints have union exactly [0,W) x [0,H). *)
Theorem gridCropCorners_coverage (W H tw th sw sh : Z) :
  0 < sw <= tw -> tw <= W ->
  0 < sh <= th -> th <= H ->
  exists corners,
    _gridCropCorners (W, H) (tw, th) (Some (sw, sh)) true = Ok corners /\
    covers_raster (W, H) (tw, th) corners.
Proof.
  intros Hsw Htw Hsh Hth.
  destruct (range_total 0 (W - tw) sw ltac:(lia)) as [cs Hcs].
  destruct (range_total 0 (H - th) sh ltac:(lia)) as [rs Hrs].
  unfold _gridCropCorners. cbn [fst snd]. rewrite Hcs, Hrs. cbn [rbind].
  eexists. split; [reflexivity |].
  intros x y. cbn [fst snd].
  rewrite (axis_coverage W tw sw cs Hsw Htw Hcs x).
  rewrite (axis_coverage H th sh rs Hsh Hth Hrs y).
  split.
  - intros [(c & Hc & Hx) (r & Hr & Hy)].
    exists (c, r). split; [apply in_corner_product; tauto |].
    unfold in_footprint; cbn [fst snd]; lia.
  - intros ([c r] & Hin & Hf). apply in_corner_product in Hin.
    unfold in_footprint in Hf; cbn [fst snd] in Hf.
    split; [exists c | exists r]; split; tauto || lia.
Qed.

Lemma gridCropCorners_coverage_witness :
  exists corners,
    _gridCropCorners (10, 10) (4, 4) (Some (4, 4)) true = Ok corners /\
    covers_raster (10, 10) (4, 4) corners.
Proof.
  apply (gridCropCorners_coverage 10 10 4 4 4 4); lia.
Defined.

(** Without [include_excess] no corner lies on the boundary offset
    [W - tw]: the regular progression stops before it. *)
Lemma no_excess_omits_boundary (W H tw th sw sh : Z) (corners : list (Z * Z)) :
  0 < sw -> 0 < sh ->
  _gridCropCorners (W, H) (tw, th) (Some (sw, sh)) false = Ok corners ->
  forall r, ~ In (W - tw, r) corners.
Proof.
  intros Hsw Hsh. unfold _gridCropCorners. cbn [fst snd].
  destruct (range_total 0 (W - tw) sw ltac:(lia)) as [cs Hcs].
  destruct (range_total 0 (H - th) sh ltac:(lia)) as [rs Hrs].
  rewrite Hcs, Hrs. cbn [rbind]. intros E r Hin. injection E as <-.
  apply in_corner_product in Hin. destruct Hin as [Hc _].
  apply (in_range_pos (W - tw) sw Hsw cs _ Hcs) in Hc. lia.
Qed.

(** With strides that are not 0 the call returns, and with
    [include_excess] the corner on both boundary offsets is returned. *)
Lemma gridCropCorners_total (W H tw th sw sh : Z) (include_excess : bool) :
  sw <> 0 -> sh <> 0 ->
  exists corners,
    _gridCropCorners (W, H) (tw, th) (Some (sw, sh)) include_excess
    = Ok corners /\
    (include_excess = true -> In (W - tw, H - th) corners).
Proof.
  intros Hsw Hsh. unfold _gridCropCorners. cbn [fst snd].
  destruct (range_total 0 (W - tw) sw Hsw) as [cs ->].
  destruct (range_total 0 (H - th) sh Hsh) as [rs ->].
  cbn [rbind]. eexists. split; [reflexivity |].
  intros ->. apply in_corner_product.
  split; apply in_or_app; right; left; reflexivity.
Qed.

(** For positive strides [include_excess] always changes the corners
    returned, exact multiples included: it adds the boundary offsets,
    which the regular progression never reaches. *)
Lemma include_excess_changes_corners (W H tw th sw sh : Z) :
  0 < sw -> 0 < sh ->
  _gridCropCorners (W, H) (tw, th) (Some (sw, sh)) true
  <> _gridCropCorners (W, H) (tw, th) (Some (sw, sh)) false.
Proof.
  intros Hsw Hsh E.
  destruct (gridCropCorners_total W H tw th sw sh true)
    as (corners & Et & Hin); [lia | lia |].
  rewrite Et in E. symmetry in E.
  apply (no_excess_omits_boundary W H tw th sw sh corners Hsw Hsh E (H - th)).
  apply Hin. reflexivity.
Qed.

Lemma gridCropCorners_default_stride (im_dims crop_size : Z * Z)
    (include_excess : bool) :
  _gridCropCorners im_dims crop_size None include_excess
  = _gridCropCorners im_dims crop_size (Some crop_size) include_excess.
Proof. reflexivity. Qed.

(** C5: evaluation at a raster of 8 by 8 with tiles and stride of 4 by 4,
    where the dimensions are exact multiples.  Without [include_excess]
    the code returns the single corner (0, 0); with it, the four corners
    of the partition.  The flag is not a no-op there, and the corners
    returned without it leave the last row and column uncovered. *)
Theorem include_excess_on_exact_multiple :
  _gridCropCorners (8, 8) (4, 4) None false = Ok [(0, 0)] /\
  _gridCropCorners (8, 8) (4, 4) None true
  = Ok [(0, 0); (0, 4); (4, 0); (4, 4)].
Proof. split; reflexivity. Qed.

(** C7, as stated, fails: for a tile of 5 by 5 on a raster of 2 by 2 the
    call returns, and the corner it returns has negative coordinates. *)
Lemma oversized_tile_returns_negative_corner :
  5 > 2 /\
  _gridCropCorners (2, 2) (5, 5) (Some (1, 1)) true = Ok [(-3, -3)].
Proof. split; [lia | reflexivity]. Qed.

(** C7 (amended): [_gridCropCorners] validates nothing.  It fails only
    when a component of the stride is 0, with the [ValueError] of
    [range].  For every other input, whatever the tile size and the sign
    of the stride, it returns a corner list; with [include_excess] set
    that list contains the corner (W - tw, H - th), negative when the tile
    exceeds the raster. *)
Theorem gridCropCorners_no_validation (W H tw th sw sh : Z) (include_excess : bool) :
  (sw = 0 \/ sh = 0 ->
   _gridCropCorners (W, H) (tw, th) (Some (sw, sh)) include_excess
   = Raise ValueError) /\
  (sw <> 0 -> sh <> 0 ->
   exists corners,
     _gridCropCorners (W, H) (tw, th) (Some (sw, sh)) include_excess
     = Ok corners /\
     (include_excess = true -> In (W - tw, H - th) corners)).
Proof.
  split.
  - unfold _gridCropCorners. cbn [fst snd].
    intros [-> | ->]; [reflexivity |].
    unfold PyRange.range at 1. destruct (sw =? 0); reflexivity.
  - apply gridCropCorners_total.
Qed.

Lemma gridCropCorners_no_validation_witness :
  (_gridCropCorners (2, 2) (5, 5) (Some (0, 1)) true = Raise ValueError) /\
  (exists corners,
     _gridCropCorners (2, 2) (5, 5) (Some (-1, 1)) true = Ok corners /\
     In (2 - 5, 2 - 5) corners).
Proof.
  split.
  - apply (proj1 (gridCropCorners_no_validation 2 2 5 5 0 1 true)).
    left; reflexivity.
  - destruct (proj2 (gridCropCorners_no_validation 2 2 5 5 (-1) 1 true))
      as (corners & E & Hin); [lia | lia |].
    exists corners. split; [exact E | exact (Hin eq_refl)].
Defined.

(* ------------------------------------------------------------------ *)
(** ** Arrays *)

Lemma nth_tabulate {A} (n i : nat) (f : nat -> A) (d : A) :
  (i < n)%nat -> nth i (Np.tabulate n f) d = f i.
Proof.
  intros Hi. unfold Np.tabulate.
  rewrite (nth_indep _ d (f 0%nat)) by (rewrite length_map, length_seq; lia).
  rewrite map_nth, seq_nth by lia. reflexivity.
Qed.

Lemma get_build {A} (d : A) (sh : nat * nat) (f : nat -> nat -> A) (i j : nat) :
  (i < fst sh)%nat -> (j < snd sh)%nat ->
  Np.get d (Np.build sh f) i j = f i j.
Proof.
  intros Hi Hj. unfold Np.get, Np.build. cbn [Np.data].
  rewrite (nth_tabulate _ _ _ [] Hi). apply nth_tabulate, Hj.
Qed.

Lemma build_ext {A} (sh : nat * nat) (f g : nat -> nat -> A) :
  (forall i j, (i < fst sh)%nat -> (j < snd sh)%nat -> f i j = g i j) ->
  Np.build sh f = Np.build sh g.
Proof.
  intros Hfg. unfold Np.build, Np.tabulate. f_equal.
  apply map_ext_in. intros i Hi. apply in_seq in Hi.
  apply map_ext_in. intros j Hj. apply in_seq in Hj.
  apply Hfg; lia.
Qed.

Lemma normal_build (sh : nat * nat) (f : nat -> nat -> Z) :
  normal (Np.build sh f).
Proof.
  unfold normal. cbn [Np.shape Np.build].
  apply build_ext. intros i j Hi Hj. symmetry. apply get_build; assumption.
Qed.

Lemma normal_ext (a b : Np.ndarray Z) :
  normal a -> normal b -> Np.shape a = Np.shape b ->
  (forall i j, (i < fst (Np.shape a))%nat -> (j < snd (Np.shape a))%nat ->
               Np.get 0 a i j = Np.get 0 b i j) ->
  a = b.
Proof.
  intros Ha Hb Hsh Hget. rewrite Ha, Hb, <- Hsh.
  apply build_ext, Hget.
Qed.

Lemma slice_range_fit (n len : nat) (a : Z) :
  0 <= a -> a + Z.of_nat len <= Z.of_nat n ->
  Np.slice_range n a (a + Z.of_nat len) = (Z.to_nat a, len).
Proof.
  intros Ha Hfit. unfold Np.slice_range, Np.adjust.
  destruct (Z.ltb_spec a 0); [lia |].
  destruct (Z.ltb_spec (a + Z.of_nat len) 0); [lia |].
  f_equal; lia.
Qed.

Lemma bidx_lt (n i : nat) : (i < n)%nat -> Np.bidx n i = i.
Proof.
  intros Hi. unfold Np.bidx. destruct (Nat.eqb_spec n 1); lia.
Qed.

Lemma bdim_same (n : nat) : Np.bdim n n = Some n.
Proof. unfold Np.bdim. rewrite Nat.eqb_refl. reflexivity. Qed.

Lemma fits_same (n : nat) : Np.fits n n = true.
Proof. unfold Np.fits. rewrite Nat.eqb_refl. reflexivity. Qed.

(** On arrays of one shape a binary operation is elementwise. *)
Lemma broadcast2_same {A B C} (da : A) (db : B) (f : A -> B -> C)
    (a : Np.ndarray A) (b : Np.ndarray B) :
  Np.shape a = Np.shape b ->
  Np.broadcast2 da db f a b
  = Ok (Np.build (Np.shape a)
          (fun i j => f (Np.get da a i j) (Np.get db b i j))).
Proof.
  intros Hsh. unfold Np.broadcast2. rewrite <- Hsh, !bdim_same.
  rewrite <- surjective_pairing. f_equal.
  apply build_ext. intros i j Hi Hj. rewrite !bidx_lt by assumption.
  reflexivity.
Qed.

Lemma trunc_half (z : Z) : Np.trunc (inject_Z z / 2)%Q = Z.quot z 2.
Proof.
  unfold Np.trunc. cbn. rewrite Z.mul_1_r. reflexivity.
Qed.

Lemma pow2_bits (p : Np.c_long) :
  2 ^ Np.bits p = 2 * 2 ^ (Np.bits p - 1) /\ 0 < 2 ^ (Np.bits p - 1).
Proof. destruct p; split; reflexivity. Qed.

(** A sum that the C long holds is stored as it is. *)
Lemma wrap_small (p : Np.c_long) (z : Z) :
  - 2 ^ (Np.bits p - 1) <= z < 2 ^ (Np.bits p - 1) -> Np.wrap p z = z.
Proof.
  intros Hz. unfold Np.wrap. destruct (pow2_bits p) as [E Hpos].
  rewrite Z.mod_small by lia. lia.
Qed.

Lemma warning_eqb_refl (w : warning) : warning_eqb w w = true.
Proof.
  destruct w as [msg lineno]. cbn.
  rewrite String.eqb_refl, Z.eqb_refl. reflexivity.
Qed.

Lemma round_log_known (lineno : Z) (method : string) (ws : list warning) :
  known_method method = true -> round_log lineno method ws = ws.
Proof. intros E. unfold round_log. rewrite E. reflexivity. Qed.

(** A second round shows nothing more than the first. *)
Lemma round_log_idem (lineno : Z) (method : string) (ws : list warning) :
  round_log lineno method (round_log lineno method ws)
  = round_log lineno method ws.
Proof.
  unfold round_log. destruct (known_method method); [reflexivity |].
  destruct (existsb _ ws) eqn:E; [rewrite E; reflexivity |].
  rewrite existsb_app. cbn [existsb]. rewrite warning_eqb_refl.
  rewrite orb_true_r. reflexivity.
Qed.

Lemma warn_round_log (lineno : Z) (method : string) (ws : list warning) :
  known_method method = false ->
  warn (invalid_method_msg method) lineno ws
  = (round_log lineno method ws, Ok tt).
Proof.
  intros E. unfold warn, round_log. rewrite E.
  destruct (existsb _ ws); reflexivity.
Qed.

Lemma fold_round_log {A} (lineno : Z) (method : string) (l : list A)
    (ws : list warning) :
  l <> [] ->
  fold_left (fun ws (_ : A) => round_log lineno method ws) l ws
  = round_log lineno method ws.
Proof.
  intros Hne. destruct l as [| a l]; [contradiction |]. clear Hne.
  cbn [fold_left]. induction l as [| b l IH]; [reflexivity |].
  cbn [fold_left]. rewrite round_log_idem. exact IH.
Qed.

Lemma method_warnings_known (method : string) :
  known_method method = true -> method_warnings method = [].
Proof. apply round_log_known. Qed.




(* ------------------------------------------------------------------ *)
(** ** One round of the stitching loop *)

Lemma region_covers (crop : Crop) (i j : nat) :
  0 <= crop_x crop -> 0 <= crop_y crop ->
  ((Z.to_nat (crop_y crop) <=? i) &&
   (i <? Z.to_nat (crop_y crop) + snd (size (img crop))) &&
   (Z.to_nat (crop_x crop) <=? j) &&
   (j <? Z.to_nat (crop_x crop) + fst (size (img crop))))%nat
  = covers j i crop.
Proof.
  intros Hx Hy. unfold covers, crop_x, crop_y in *.
  apply eq_true_iff_eq.
  rewrite !andb_true_iff, !Nat.leb_le, !Nat.ltb_lt, !Z.leb_le, !Z.ltb_lt.
  lia.
Qed.

Lemma covers_bounds (img_np : Np.ndarray Z) (crop : Crop) (x y : nat) :
  crop_fits img_np crop -> covers x y crop = true ->
  (y < fst (Np.shape img_np))%nat /\ (x < snd (Np.shape img_np))%nat /\
  (Z.to_nat (Z.of_nat y - crop_y crop) < snd (size (img crop)))%nat /\
  (Z.to_nat (Z.of_nat x - crop_x crop) < fst (size (img crop)))%nat.
Proof.
  unfold crop_fits, covers, crop_x, crop_y, crop_w, crop_h.
  rewrite !andb_true_iff, !Z.leb_le, !Z.ltb_lt. lia.
Qed.

Lemma getslice_fit (img_np : Np.ndarray Z) (crop : Crop) :
  crop_fits img_np crop ->
  Np.getslice 0 img_np (crop_idxs crop)
  = Np.build (snd (size (img crop)), fst (size (img crop)))
      (fun i j => Np.get 0 img_np (Z.to_nat (crop_y crop) + i)
                                  (Z.to_nat (crop_x crop) + j)).
Proof.
  intros (Hx & Hw & Hy & Hh). unfold Np.getslice, crop_idxs.
  unfold crop_x, crop_y, crop_w, crop_h in *.
  rewrite !slice_range_fit by assumption. reflexivity.
Qed.

(** Assignment of an array of the shape of [crop] to its slice. *)
Lemma assign_fit {A} (cast : A -> Z) (d : A) (img_np : Np.ndarray Z)
    (crop : Crop) (v : Np.ndarray A) :
  crop_fits img_np crop ->
  Np.shape v = (snd (size (img crop)), fst (size (img crop))) ->
  Np.assign cast d img_np (crop_idxs crop) v
  = Ok (Np.build (Np.shape img_np) (fun i j =>
          if covers j i crop
          then cast (Np.get d v (Z.to_nat (Z.of_nat i - crop_y crop))
                                (Z.to_nat (Z.of_nat j - crop_x crop)))
          else Np.get 0 img_np i j)).
Proof.
  intros Hfit Hsh. pose proof Hfit as (Hx & Hw & Hy & Hh).
  unfold Np.assign, crop_idxs.
  unfold crop_x, crop_y, crop_w, crop_h in Hx, Hw, Hy, Hh.
  rewrite !slice_range_fit by assumption.
  rewrite Hsh. cbn [fst snd]. rewrite !fits_same. cbn [andb]. f_equal.
  apply build_ext. intros i j Hi Hj.
  pose proof (region_covers crop i j Hx Hy) as Hr.
  unfold crop_x, crop_y in Hr. rewrite Hr.
  destruct (covers j i crop) eqn:Hc; [| reflexivity].
  destruct (covers_bounds _ _ _ _ Hfit Hc) as (_ & _ & Hi' & Hj').
  unfold crop_x, crop_y in *.
  assert ((i - Z.to_nat (snd (corner crop)))%nat
          = Z.to_nat (Z.of_nat i - snd (corner crop))) as -> by lia.
  assert ((j - Z.to_nat (fst (corner crop)))%nat
          = Z.to_nat (Z.of_nat j - fst (corner crop))) as -> by lia.
  rewrite !bidx_lt by assumption. reflexivity.
Qed.

(** An elementwise operation on the slice of a crop and the crop. *)
Lemma section_op_fit {C} (f : Z -> Z -> C) (img_np : Np.ndarray Z)
    (crop : Crop) :
  crop_fits img_np crop ->
  Np.broadcast2 0 0 f (Np.getslice 0 img_np (crop_idxs crop))
                (asarray (img crop))
  = Ok (Np.build (snd (size (img crop)), fst (size (img crop)))
          (fun i j =>
             f (Np.get 0 img_np (Z.to_nat (crop_y crop) + i)
                                (Z.to_nat (crop_x crop) + j))
               (Np.get 0 (asarray (img crop)) i j))).
Proof.
  intros Hfit. rewrite (getslice_fit _ _ Hfit).
  rewrite broadcast2_same by reflexivity. cbn [Np.shape Np.build].
  f_equal. apply build_ext. intros i j Hi Hj.
  rewrite get_build by assumption. reflexivity.
Qed.

Lemma covered_index (img_np : Np.ndarray Z) (crop : Crop) (i j : nat) :
  crop_fits img_np crop -> covers j i crop = true ->
  (Z.to_nat (crop_y crop) + Z.to_nat (Z.of_nat i - crop_y crop))%nat = i /\
  (Z.to_nat (crop_x crop) + Z.to_nat (Z.of_nat j - crop_x crop))%nat = j.
Proof.
  unfold crop_fits, covers, crop_x, crop_y.
  rewrite !andb_true_iff, !Z.leb_le, !Z.ltb_lt. lia.
Qed.

(** A crop that fits is blended pixel by pixel into its footprint, the
    rest of the buffer is kept, and no exception is raised. *)
Lemma stitch_crop_fit (p : Np.c_long) (lineno : Z) (method : string)
    (img_np : Np.ndarray Z) (crop : Crop) (ws : list warning) :
  crop_fits img_np crop ->
  stitch_crop p lineno method img_np crop ws
  = (round_log lineno method ws,
     Ok (Np.build (Np.shape img_np) (fun i j =>
           px_step (blend_px p method) j i (Np.get 0 img_np i j) crop))).
Proof.
  intros Hfit.
  assert (forall (f : Z -> Z -> Z),
    (r <- Np.broadcast2 0 0 f (Np.getslice 0 img_np (crop_idxs crop))
                        (asarray (img crop)) ;;
     Np.setitem img_np (crop_idxs crop) (Np.IntArray r))%result
    = Ok (Np.build (Np.shape img_np) (fun i j =>
            px_step f j i (Np.get 0 img_np i j) crop))) as Hint.
  { intros f. rewrite (section_op_fit f _ _ Hfit). cbn [rbind Np.setitem].
    rewrite (assign_fit _ _ _ _ _ Hfit) by reflexivity. f_equal.
    apply build_ext. intros i j Hi Hj. unfold px_step.
    destruct (covers j i crop) eqn:Hc; [| reflexivity].
    destruct (covers_bounds _ _ _ _ Hfit Hc) as (_ & _ & Hi' & Hj').
    destruct (covered_index _ _ _ _ Hfit Hc) as [Ei Ej].
    rewrite get_build by assumption. rewrite Ei, Ej. reflexivity. }
  assert ((r <- Np.mean2 p (Np.getslice 0 img_np (crop_idxs crop))
                         (asarray (img crop)) ;;
           Np.setitem img_np (crop_idxs crop) r)%result
    = Ok (Np.build (Np.shape img_np) (fun i j =>
            px_step (fun e v => Np.trunc (inject_Z (Np.wrap p (e + v)) / 2)%Q)
                    j i (Np.get 0 img_np i j) crop))) as Hmean.
  { unfold Np.mean2.
    rewrite (section_op_fit (fun x y => Np.wrap p (x + y)) _ _ Hfit).
    cbn [rbind Np.setitem].
    rewrite (assign_fit _ _ _ _ _ Hfit) by reflexivity. f_equal.
    apply build_ext. intros i j Hi Hj. unfold px_step.
    destruct (covers j i crop) eqn:Hc; [| reflexivity].
    destruct (covers_bounds _ _ _ _ Hfit Hc) as (_ & _ & Hi' & Hj').
    destruct (covered_index _ _ _ _ Hfit Hc) as [Ei Ej].
    unfold Np.map_array. cbn [Np.shape Np.build].
    rewrite !get_build by assumption. rewrite Ei, Ej. reflexivity. }
  unfold stitch_crop, blend_px, bind, lift.
  unfold Np.bitwise_or, Np.bitwise_and.
  destruct (method =? "or")%string eqn:Eor.
  { rewrite round_log_known by (unfold known_method; rewrite Eor; reflexivity).
    specialize (Hint Z.lor).
    destruct (Np.broadcast2 0 0 Z.lor _ _); cbn [rbind] in *;
      [| discriminate].
    rewrite Hint. reflexivity. }
  destruct (method =? "and")%string eqn:Eand.
  { rewrite round_log_known by (unfold known_method; rewrite Eor, Eand;
                                reflexivity).
    specialize (Hint Z.land).
    destruct (Np.broadcast2 0 0 Z.land _ _); cbn [rbind] in *;
      [| discriminate].
    rewrite Hint. reflexivity. }
  destruct (method =? "average")%string eqn:Eavg.
  - rewrite round_log_known by (unfold known_method;
                                rewrite Eor, Eand, Eavg; reflexivity).
    destruct (Np.mean2 _ _ _); cbn [rbind] in *; [| discriminate].
    rewrite Hmean. reflexivity.
  - rewrite warn_round_log by (unfold known_method;
                               rewrite Eor, Eand, Eavg; reflexivity).
    destruct (Np.mean2 _ _ _); cbn [rbind] in *; [| discriminate].
    rewrite Hmean. reflexivity.
Qed.

Lemma crop_fits_shape (a b : Np.ndarray Z) (crop : Crop) :
  Np.shape a = Np.shape b -> crop_fits a crop -> crop_fits b crop.
Proof. unfold crop_fits. intros ->. tauto. Qed.

(* ------------------------------------------------------------------ *)
(** ** The dimensions of the output *)

Lemma fold_max_of (l : list Z) (a : Z) :
  0 <= a -> fold_left Z.max l a = Z.max a (max_of l).
Proof.
  revert a. induction l as [| v l IH]; intros a Ha.
  - cbn. lia.
  - change (max_of (v :: l)) with (Z.max v (max_of l)).
    cbn [fold_left]. rewrite IH by lia. lia.
Qed.

Lemma max_of_nonneg (l : list Z) : 0 <= max_of l.
Proof.
  induction l as [| v l IH]; [cbn; lia |].
  change (max_of (v :: l)) with (Z.max v (max_of l)). lia.
Qed.

Lemma max_of_ge (l : list Z) (v : Z) : In v l -> v <= max_of l.
Proof.
  induction l as [| u l IH]; [intros [] |].
  change (max_of (u :: l)) with (Z.max u (max_of l)).
  intros [-> | Hin]; [lia | specialize (IH Hin); lia].
Qed.

Lemma dims_loop (l : list Crop) (a b c d : Z) :
  fold_left dims_step l ((a, b), (c, d))
  = ((fold_left Z.max (map crop_w l) a, fold_left Z.max (map crop_h l) b),
     (fold_left Z.max (map crop_x l) c, fold_left Z.max (map crop_y l) d)).
Proof.
  revert a b c d. induction l as [| crop l IH]; intros a b c d.
  - reflexivity.
  - cbn [fold_left map]. rewrite <- IH. f_equal.
    unfold dims_step, crop_w, crop_h, crop_x, crop_y. cbn [fst snd].
    repeat match goal with
           | |- context [?u >? ?v] => destruct (Z.gtb_spec u v)
           end; cbn [fst snd] in *; rewrite !pair_equal_spec; lia.
Qed.

(** [img_dims] is the largest corner plus the largest tile size, along
    each axis. *)
Lemma find_dims_eq (l : list Crop) :
  find_dims l
  = (max_of (map crop_x l) + max_of (map crop_w l),
     max_of (map crop_y l) + max_of (map crop_h l)).
Proof.
  unfold find_dims. rewrite dims_loop. cbn [fst snd].
  rewrite !fold_max_of by lia.
  pose proof (max_of_nonneg (map crop_x l)).
  pose proof (max_of_nonneg (map crop_y l)).
  pose proof (max_of_nonneg (map crop_w l)).
  pose proof (max_of_nonneg (map crop_h l)).
  f_equal; lia.
Qed.

Lemma find_dims_nonneg (l : list Crop) :
  0 <= fst (find_dims l) /\ 0 <= snd (find_dims l).
Proof.
  rewrite find_dims_eq. cbn [fst snd].
  pose proof (max_of_nonneg (map crop_x l)).
  pose proof (max_of_nonneg (map crop_y l)).
  pose proof (max_of_nonneg (map crop_w l)).
  pose proof (max_of_nonneg (map crop_h l)).
  lia.
Qed.

(** Crops with corners that are not negative fit into an array of the
    dimensions found. *)
Lemma crops_fit (l : list Crop) (a : Np.ndarray Z) :
  corners_ok l ->
  Np.shape a = (Z.to_nat (snd (find_dims l)), Z.to_nat (fst (find_dims l))) ->
  Forall (crop_fits a) l.
Proof.
  intros Hok Hsh. apply Forall_forall. intros crop Hin.
  unfold corners_ok in Hok. rewrite Forall_forall in Hok.
  destruct (Hok crop Hin) as [Hx Hy].
  unfold crop_fits. rewrite Hsh, find_dims_eq. cbn [fst snd].
  pose proof (max_of_ge _ _ (in_map crop_x _ _ Hin)).
  pose proof (max_of_ge _ _ (in_map crop_y _ _ Hin)).
  pose proof (max_of_ge _ _ (in_map crop_w _ _ Hin)).
  pose proof (max_of_ge _ _ (in_map crop_h _ _ Hin)).
  lia.
Qed.

Lemma zeros_ok (h w : Z) :
  0 <= h -> 0 <= w ->
  Np.zeros (h, w) = Ok (Np.build (Z.to_nat h, Z.to_nat w) (fun _ _ => 0)).
Proof.
  intros Hh Hw. unfold Np.zeros. cbn [fst snd].
  destruct (Z.ltb_spec h 0); [lia |].
  destruct (Z.ltb_spec w 0); [lia |]. reflexivity.
Qed.

(* ------------------------------------------------------------------ *)
(** ** The stitching loop *)

Section Loop.

Variable body : Np.ndarray Z -> Crop -> M (Np.ndarray Z).
Variable bl : Z -> Z -> Z.
Variable lg : list warning -> list warning.

Hypothesis body_fit : forall img_np crop ws,
  crop_fits img_np crop ->
  body img_np crop ws
  = (lg ws,
     Ok (Np.build (Np.shape img_np) (fun i j =>
           px_step bl j i (Np.get 0 img_np i j) crop))).

(** Every pixel of the buffer is folded, in the order of the crops, with
    the samples of the crops that cover it. *)
Lemma for_each_fit (crop_imgs : list Crop) :
  forall (img_np : Np.ndarray Z) (ws : list warning),
  Forall (crop_fits img_np) crop_imgs ->
  normal img_np ->
  exists out,
    for_each body crop_imgs img_np ws
    = (fold_left (fun ws (_ : Crop) => lg ws) crop_imgs ws, Ok out) /\
    Np.shape out = Np.shape img_np /\
    normal out /\
    forall i j, (i < fst (Np.shape img_np))%nat ->
                (j < snd (Np.shape img_np))%nat ->
      Np.get 0 out i j
      = fold_left (px_step bl j i) crop_imgs (Np.get 0 img_np i j).
Proof.
  induction crop_imgs as [| crop rest IH]; intros img_np ws Hfit Hn.
  - exists img_np. cbn. auto.
  - inversion Hfit as [| ? ? Hc Hrest]; subst.
    set (next := Np.build (Np.shape img_np) (fun i j =>
                   px_step bl j i (Np.get 0 img_np i j) crop)).
    destruct (IH next (lg ws)) as (out & E & Hsh & Hno & Hpx).
    + eapply Forall_impl; [| exact Hrest].
      intros c. apply crop_fits_shape. reflexivity.
    + apply normal_build.
    + exists out. cbn [for_each]. unfold bind.
      rewrite (body_fit _ _ _ Hc). fold next. rewrite E.
      cbn [fold_left].
      repeat split; [exact Hsh | exact Hno |].
      intros i j Hi Hj. rewrite (Hpx i j Hi Hj). cbn [fold_left].
      unfold next. rewrite get_build by assumption. reflexivity.
Qed.

End Loop.

(* ------------------------------------------------------------------ *)
(** ** [stitchCrops] on well-placed crops *)

Lemma check_modes_ok (mode0 : pil_mode) (l : list Crop) :
  Forall (fun c => mode (img c) = mode0) l -> check_modes mode0 l = Ok tt.
Proof.
  induction 1 as [| c l Hc _ IH]; cbn; [reflexivity |].
  rewrite Hc. destruct mode0; exact IH.
Qed.

Lemma pil_mode_eqb_spec (a b : pil_mode) :
  reflect (a = b) (pil_mode_eqb a b).
Proof. destruct a, b; constructor; congruence. Qed.

(** The call is the construction of the array followed by its
    conversion; an exception of the construction ends the call. *)
Lemma stitchCrops_eq (pf : platform) (crop_imgs : list Crop)
    (method : string) (ws : list warning) :
  stitchCrops pf crop_imgs method ws
  = (fst (stitch_array (np_int pf) crop_imgs method ws),
     (img_np <- snd (stitch_array (np_int pf) crop_imgs method ws) ;;
      fromarray pf img_np)%result).
Proof.
  unfold stitchCrops, bind, lift.
  destruct (stitch_array (np_int pf) crop_imgs method ws) as [ws' [a | e]]; reflexivity.
Qed.

Lemma stitchCrops_converts (pf : platform) (crop_imgs : list Crop)
    (method : string) (ws : list warning) (img_np : Np.ndarray Z) :
  run (stitch_array (np_int pf) crop_imgs method) = (ws, Ok img_np) ->
  run (stitchCrops pf crop_imgs method) = (ws, fromarray pf img_np).
Proof.
  unfold run. intros E. rewrite stitchCrops_eq, E. reflexivity.
Qed.

Lemma stitchCrops_raises (pf : platform) (crop_imgs : list Crop)
    (method : string) (ws : list warning) (e : exn) :
  run (stitch_array (np_int pf) crop_imgs method) = (ws, Raise e) ->
  run (stitchCrops pf crop_imgs method) = (ws, Raise e).
Proof.
  unfold run. intros E. rewrite stitchCrops_eq, E. reflexivity.
Qed.

(** After the check of the modes. *)
Lemma stitch_array_cons (p : Np.c_long) (c : Crop) (rest : list Crop)
    (method : string) (ws : list warning) :
  stitch_array p (c :: rest) method ws
  = match check_modes (mode (img c)) (c :: rest) with
    | Ok _ =>
        match Np.zeros (snd (find_dims (c :: rest)),
                        fst (find_dims (c :: rest))) with
        | Ok img_np =>
            for_each (stitch_crop p 124 method) (c :: rest) img_np ws
        | Raise e => (ws, Raise e)
        end
    | Raise e => (ws, Raise e)
    end.
Proof.
  unfold stitch_array, bind, lift.
  destruct (check_modes _ _); [| reflexivity].
  destruct (Np.zeros _); reflexivity.
Qed.


(** On a non-empty sequence of crops of one mode with corners that are
    not negative, [stitchCrops] builds an array of the dimensions found,
    each element of which is the fold of the blend over the crops. *)
Lemma stitch_array_fit (p : Np.c_long) (crop_imgs : list Crop)
    (method : string) :
  crop_imgs <> [] -> same_mode crop_imgs -> corners_ok crop_imgs ->
  exists img_np,
    run (stitch_array p crop_imgs method)
    = (method_warnings method, Ok img_np) /\
    Np.shape img_np = buffer_shape crop_imgs /\
    normal img_np /\
    forall i j, (i < fst (buffer_shape crop_imgs))%nat ->
                (j < snd (buffer_shape crop_imgs))%nat ->
      Np.get 0 img_np i j
      = fold_left (px_step (blend_px p method) j i) crop_imgs 0.
Proof.
  intros Hne Hm Hok. destruct crop_imgs as [| c rest]; [contradiction |].
  unfold run. rewrite stitch_array_cons.
  cbn [same_mode] in Hm. rewrite (check_modes_ok _ _ Hm).
  destruct (find_dims_nonneg (c :: rest)) as [Hw Hh].
  rewrite (zeros_ok _ _ Hh Hw).
  set (z := Np.build _ _).
  destruct (for_each_fit (stitch_crop p 124 method) (blend_px p method)
              (round_log 124 method) (stitch_crop_fit p 124 method)
              (c :: rest) z [])
    as (out & E & Hsh & Hno & Hpx).
  - apply crops_fit; [exact Hok | reflexivity].
  - apply normal_build.
  - exists out. rewrite E, fold_round_log by discriminate.
    repeat split; [exact Hsh | exact Hno |].
    intros i j Hi Hj. rewrite (Hpx i j Hi Hj).
    unfold z. rewrite get_build by assumption. reflexivity.
Qed.

(* ------------------------------------------------------------------ *)
(** ** Dimensions of the result (C1) *)








Example conversion_fails_on_64_bits :
  run (stitch_array Np.Long64 [crop_of_2; crop_of_3] "or")
  = ([], Ok (Np.mk_ndarray (1%nat, 2%nat) [[2; 3]])) /\
  run (stitchCrops long64 [crop_of_2; crop_of_3] "or")
  = ([], Raise TypeError) /\
  run (stitchCrops long64 [crop_of_2; crop_of_3] "xor")
  = ([UserWarning
        "Invalid method. Reverting to 'average'. Your method: xor" 124],
     Raise TypeError).
Proof. repeat split; vm_compute; reflexivity. Qed.

(* ------------------------------------------------------------------ *)
(** ** The value of a pixel (C3, C4) *)

(** C3: tiles that do not overlap are not placed as they are.  The tile
    holding 2 at x = 0 and the tile holding 3 at x = 1 share no pixel;
    the array that 'or' builds holds 2 and 3, the array that 'average'
    builds holds 1 and 1 and the array that 'and' builds holds 0 and 0,
    and where the C long has 32 bits these are the rasters returned:
    each tile, the first one too, is blended with the zeros the buffer is
    allocated with. *)
Theorem blend_with_zero_buffer_changes_sample (p : Np.c_long) :
  (forall x y, covers x y crop_of_2 && covers x y crop_of_3 = false) /\
  sample 0 0 crop_of_2 = 2 /\ sample 1 0 crop_of_3 = 3 /\
  run (stitch_array p [crop_of_2; crop_of_3] "or")
  = ([], Ok (Np.mk_ndarray (1%nat, 2%nat) [[2; 3]])) /\
  run (stitch_array p [crop_of_2; crop_of_3] "average")
  = ([], Ok (Np.mk_ndarray (1%nat, 2%nat) [[1; 1]])) /\
  run (stitch_array p [crop_of_2; crop_of_3] "and")
  = ([], Ok (Np.mk_ndarray (1%nat, 2%nat) [[0; 0]])) /\
  run (stitchCrops long32 [crop_of_2; crop_of_3] "or")
  = ([], Ok (mk_Image mode_I (2%nat, 1%nat) [[2; 3]])) /\
  run (stitchCrops long32 [crop_of_2; crop_of_3] "average")
  = ([], Ok (mk_Image mode_I (2%nat, 1%nat) [[1; 1]])) /\
  run (stitchCrops long32 [crop_of_2; crop_of_3] "and")
  = ([], Ok (mk_Image mode_I (2%nat, 1%nat) [[0; 0]])).
Proof.
  split.
  { intros x y. unfold covers, crop_of_2, crop_of_3, img1.
    cbn [corner img size fst snd].
    destruct (Z.ltb_spec (Z.of_nat x) (0 + Z.of_nat 1));
      destruct (Z.leb_spec 1 (Z.of_nat x)); try lia;
      rewrite ?andb_false_r; cbn [andb]; rewrite ?andb_false_r;
      reflexivity. }
  split; [reflexivity |]. split; [reflexivity |].
  destruct p; repeat split; vm_compute; reflexivity.
Qed.

(** C4: a pixel covered by three tiles holding 8 receives 7 under
    'average', which is the fold of the blend started at the 0 of the
    buffer, and not average(average(8, 8), 8) = 8: the first tile is
    itself averaged with the buffer. *)
Theorem three_tiles_fold_from_zero (p : Np.c_long) :
  filter (covers 0 0) three_of_8 = three_of_8 /\
  map (sample 0 0) three_of_8 = [8; 8; 8] /\
  run (stitch_array p three_of_8 "average") = ([], Ok (array1 7)) /\
  run (stitchCrops long32 three_of_8 "average")
  = ([], Ok (mk_Image mode_I (1%nat, 1%nat) [[7]])) /\
  blend_px p "average" (blend_px p "average" 8 8) 8 = 8 /\
  blend_px p "average"
    (blend_px p "average" (blend_px p "average" 0 8) 8) 8 = 7.
Proof.
  destruct p; repeat split; vm_compute; reflexivity.
Qed.

(* ------------------------------------------------------------------ *)
(** ** Failures (C6, C8, C9) *)

(** C8: [stitchCrops] on the empty sequence fails: reading the mode of
    the first crop raises [IndexError], whatever the method, and no
    warning is emitted. *)
Theorem stitchCrops_empty (pf : platform) (method : string) :
  run (stitchCrops pf [] method) = ([], Raise IndexError).
Proof. reflexivity. Qed.

Lemma check_binary_spec (l : list ObjCrop) :
  check_binary l
  = if existsb is_pil_image l then Raise AttributeError else Ok tt.
Proof.
  induction l as [| c l IH]; [reflexivity |].
  cbn [check_binary existsb]. unfold is_pil_image at 1, obj_astype_bool.
  destruct (obj c) as [im | a]; cbn [rbind orb]; [reflexivity |].
  destruct (negb _); exact IH.
Qed.

(** What a call of [stitchBinary] on crops comes to. *)
Lemma stitchBinary_outcome (pf : platform) (c : ObjCrop)
    (rest : list ObjCrop) (method : string) (ws : list warning) :
  stitchBinary pf (c :: rest) method ws
  = (ws, Raise (if existsb is_pil_image (c :: rest)
                then AttributeError else TypeError)).
Proof.
  unfold stitchBinary, bind, lift. rewrite check_binary_spec.
  destruct (existsb is_pil_image (c :: rest)) eqn:E; [reflexivity |].
  cbn [existsb] in E. apply orb_false_iff in E. destruct E as [Ec _].
  cbn [binary_dims]. unfold sized_crop. unfold is_pil_image in Ec.
  destruct (obj c); [discriminate | reflexivity].
Qed.

(** C6: the loop that is to check that the crops are binary passes the
    array holding the sample 2, which its test tells from a binary one:
    there is nothing under the test.  The call then fails, with the
    [TypeError] of reading [size[0]] of an array, exactly as it does on
    the array holding 1; no error comes from the validation. *)
Theorem stitchBinary_accepts_nonbinary (pf : platform) (method : string) :
  Np.array_equal (array1 2) (Np.astype_bool (array1 2)) = false /\
  Np.array_equal (array1 1) (Np.astype_bool (array1 1)) = true /\
  check_binary [bin_array_2] = Ok tt /\
  run (stitchBinary pf [bin_array_2] method) = ([], Raise TypeError) /\
  run (stitchBinary pf [bin_array_1] method) = ([], Raise TypeError).
Proof.
  split; [reflexivity |]. split; [reflexivity |]. split; [reflexivity |].
  unfold run. rewrite !stitchBinary_outcome. split; reflexivity.
Qed.

(** C9: under the method name 'xor' [stitchBinary] neither warns nor
    averages: on an array it fails with [TypeError] and on a PIL image
    with [AttributeError], before the name is looked at.  [stitchCrops]
    on the tile holding 3 shows the warning once and builds what
    'average' builds. *)
Theorem stitchBinary_xor_never_dispatches (pf : platform) :
  run (stitchBinary pf [bin_array_1] "xor") = ([], Raise TypeError) /\
  run (stitchBinary pf [bin_image_1] "xor") = ([], Raise AttributeError) /\
  run (stitch_array (np_int pf) [mk_Crop (img1 3) (0, 0)] "xor")
  = ([UserWarning
        "Invalid method. Reverting to 'average'. Your method: xor" 124],
     Ok (array1 1)) /\
  run (stitch_array (np_int pf) [mk_Crop (img1 3) (0, 0)] "average")
  = ([], Ok (array1 1)).
Proof.
  unfold run. rewrite !stitchBinary_outcome.
  destruct pf as [[|] b]; repeat split; vm_compute; reflexivity.
Qed.

(* ------------------------------------------------------------------ *)
(** ** Truncation at each round (C10) *)

(** C10: a round of the loop under 'average' stores, at every pixel the
    crop covers, the mean of the value in the buffer and the sample of
    the crop truncated to an integer: their sum, as the C long holds it,
    divided by 2 with rounding towards zero.  The fraction is lost at
    that round.  Blending the untouched value 0 with the sample 1, whose
    mean is 1/2, stores 0, and with the sample 3 it stores 1; the samples
    -1 and then 2 leave 1, where the mean of -1/2 and 2 is 3/4. *)
Theorem average_truncates_each_round (p : Np.c_long) :
  (forall (lineno : Z) (img_np : Np.ndarray Z) (crop : Crop)
          (ws : list warning),
     crop_fits img_np crop ->
     exists out,
       stitch_crop p lineno "average" img_np crop ws = (ws, Ok out) /\
       forall x y, covers x y crop = true ->
         Np.get 0 out y x
         = Np.trunc (Qdiv (inject_Z (Np.wrap p (Np.get 0 img_np y x
                                                + sample x y crop))) 2%Q) /\
         (- 2 ^ (Np.bits p - 1) <= Np.get 0 img_np y x + sample x y crop
          < 2 ^ (Np.bits p - 1) ->
          Np.get 0 out y x
          = Z.quot (Np.get 0 img_np y x + sample x y crop) 2)) /\
  Qeq (Qdiv (inject_Z (Np.wrap p (0 + 1))) 2%Q) (1 # 2)%Q /\
  run (stitch_array p [mk_Crop (img1 1) (0, 0)] "average")
  = ([], Ok (array1 0)) /\
  run (stitch_array p [mk_Crop (img1 3) (0, 0)] "average")
  = ([], Ok (array1 1)) /\
  run (stitch_array p [mk_Crop (img_I (-1)) (0, 0);
                       mk_Crop (img_I 2) (0, 0)] "average")
  = ([], Ok (array1 1)) /\
  Qeq (Qdiv (Qplus (Qdiv (inject_Z (0 + -1)) 2%Q) (inject_Z 2)) 2%Q)
      (3 # 4)%Q.
Proof.
  split; [| destruct p; repeat split; vm_compute; reflexivity].
  intros lineno img_np crop ws Hfit. eexists. split.
  - rewrite (stitch_crop_fit p lineno "average" _ _ ws Hfit).
    rewrite round_log_known by reflexivity. reflexivity.
  - intros x y Hc.
    destruct (covers_bounds _ _ _ _ Hfit Hc) as (Hy & Hx & _).
    rewrite get_build by assumption. unfold px_step. rewrite Hc.
    unfold blend_px. cbn [String.eqb Ascii.eqb Bool.eqb].
    split; [reflexivity |].
    intros Hr. rewrite trunc_half, (wrap_small p _ Hr). reflexivity.
Qed.

Lemma average_truncates_each_round_witness :
  exists out,
    stitch_crop Np.Long32 124 "average" (array1 3) (mk_Crop (img1 2) (0, 0)) []
    = ([], Ok out) /\
    forall x y, covers x y (mk_Crop (img1 2) (0, 0)) = true ->
      Np.get 0 out y x
      = Np.trunc (Qdiv (inject_Z
                          (Np.wrap Np.Long32
                             (Np.get 0 (array1 3) y x
                              + sample x y (mk_Crop (img1 2) (0, 0))))) 2%Q) /\
      (- 2 ^ (Np.bits Np.Long32 - 1)
       <= Np.get 0 (array1 3) y x + sample x y (mk_Crop (img1 2) (0, 0))
       < 2 ^ (Np.bits Np.Long32 - 1) ->
       Np.get 0 out y x
       = Z.quot (Np.get 0 (array1 3) y x
                 + sample x y (mk_Crop (img1 2) (0, 0))) 2).
Proof.
  apply (proj1 (average_truncates_each_round Np.Long32)).
  unfold crop_fits. cbn. lia.
Defined.

Example round_stores_truncated_mean :
  stitch_crop Np.Long32 124 "average" (array1 3) (mk_Crop (img1 2) (0, 0)) []
  = ([], Ok (array1 2)).
Proof. vm_compute. reflexivity. Qed.

(* ================================================================== *)
(** * Further properties of the corner generation *)

Lemma range_NoDup (start stop step : Z) (l : list Z) :
  PyRange.range start stop step = Ok l -> NoDup l.
Proof.
  unfold PyRange.range. destruct (Z.eqb_spec step 0) as [| Hs]; [discriminate |].
  intros E. injection E as <-.
  apply Finite.Injective_map_NoDup; [| apply seq_NoDup].
  intros i j Hij. nia.
Qed.

Lemma corner_product_NoDup (cs rs : list Z) :
  NoDup cs -> NoDup rs ->
  NoDup (flat_map (fun c => map (fun r => (c, r)) rs) cs).
Proof.
  intros Hcs Hrs. induction Hcs as [| c cs Hc Hcs IH]; [constructor |].
  cbn [flat_map]. apply NoDup_app.
  - apply Finite.Injective_map_NoDup; [| exact Hrs].
    intros r r' E. congruence.
  - exact IH.
  - intros [c' r'] Hin Hin'. apply in_map_iff in Hin.
    destruct Hin as (r & E & _). injection E as <- <-.
    apply in_corner_product in Hin'. tauto.
Qed.

(** The two offset lists behind a result of [_gridCropCorners]. *)
Lemma gridCropCorners_offsets (W H tw th sw sh : Z) (include_excess : bool)
    (corners : list (Z * Z)) :
  _gridCropCorners (W, H) (tw, th) (Some (sw, sh)) include_excess = Ok corners ->
  exists cs rs,
    PyRange.range 0 (W - tw) sw = Ok cs /\
    PyRange.range 0 (H - th) sh = Ok rs /\
    corners
    = flat_map (fun c => map (fun r => (c, r))
                  (if include_excess then rs ++ [H - th] else rs))
               (if include_excess then cs ++ [W - tw] else cs).
Proof.
  unfold _gridCropCorners. cbn [fst snd].
  destruct (PyRange.range 0 (W - tw) sw) as [cs |]; [| discriminate].
  destruct (PyRange.range 0 (H - th) sh) as [rs |]; [| discriminate].
  cbn [rbind]. intros E. injection E as <-. eauto.
Qed.

Lemma axis_offsets_NoDup (stop step : Z) (l : list Z) (include_excess : bool) :
  0 < step -> PyRange.range 0 stop step = Ok l ->
  NoDup (if include_excess then l ++ [stop] else l).
Proof.
  intros Hs Hl. pose proof (range_NoDup _ _ _ _ Hl) as Hnd.
  destruct include_excess; [| exact Hnd].
  apply NoDup_app; [exact Hnd | repeat constructor; intros [] |].
  intros c Hc [<- | []].
  apply (in_range_pos stop step Hs l stop Hl) in Hc. lia.
Qed.

Lemma axis_offsets_bounds (stop step : Z) (l : list Z) (include_excess : bool)
    (c : Z) :
  0 < step -> 0 <= stop -> PyRange.range 0 stop step = Ok l ->
  In c (if include_excess then l ++ [stop] else l) -> 0 <= c <= stop.
Proof.
  intros Hs Hstop Hl Hin.
  assert (In c l \/ c = stop) as [Hc | ->].
  { destruct include_excess; [| tauto].
    apply in_app_or in Hin. destruct Hin as [| [<- | []]]; tauto. }
  - apply (in_range_pos stop step Hs l c Hl) in Hc. lia.
  - lia.
Qed.

(** X1: for a tile that is not larger than the raster and positive
    strides, every corner [_gridCropCorners] returns, with or without
    [include_excess], places its tile inside the raster. *)
Theorem gridCropCorners_in_bounds (W H tw th sw sh : Z) (include_excess : bool)
    (corners : list (Z * Z)) :
  0 < sw -> 0 < sh -> tw <= W -> th <= H ->
  _gridCropCorners (W, H) (tw, th) (Some (sw, sh)) include_excess = Ok corners ->
  forall c r, In (c, r) corners ->
    0 <= c /\ c + tw <= W /\ 0 <= r /\ r + th <= H.
Proof.
  intros Hsw Hsh Htw Hth E c r Hin.
  destruct (gridCropCorners_offsets _ _ _ _ _ _ _ _ E) as (cs & rs & Hcs & Hrs & ->).
  apply in_corner_product in Hin. destruct Hin as [Hc Hr].
  apply (axis_offsets_bounds (W - tw) sw cs include_excess c Hsw) in Hc;
    [| lia | exact Hcs].
  apply (axis_offsets_bounds (H - th) sh rs include_excess r Hsh) in Hr;
    [| lia | exact Hrs].
  lia.
Qed.

Lemma gridCropCorners_in_bounds_witness :
  (0 < 4 /\ 4 <= 10) /\
  forall c r, In (c, r) [(0,0);(0,4);(0,6);(4,0);(4,4);(4,6);(6,0);(6,4);(6,6)] ->
    0 <= c /\ c + 4 <= 10 /\ 0 <= r /\ r + 4 <= 10.
Proof.
  split; [lia |].
  apply (gridCropCorners_in_bounds 10 10 4 4 4 4 true); try lia.
  reflexivity.
Defined.

(** X2: for positive strides the corners [_gridCropCorners] returns are
    pairwise distinct, with or without [include_excess]: no tile is
    produced twice, also when the boundary offset is a multiple of the
    stride. *)
Theorem gridCropCorners_NoDup (W H tw th sw sh : Z) (include_excess : bool)
    (corners : list (Z * Z)) :
  0 < sw -> 0 < sh ->
  _gridCropCorners (W, H) (tw, th) (Some (sw, sh)) include_excess = Ok corners ->
  NoDup corners.
Proof.
  intros Hsw Hsh E.
  destruct (gridCropCorners_offsets _ _ _ _ _ _ _ _ E) as (cs & rs & Hcs & Hrs & ->).
  apply corner_product_NoDup;
    [apply (axis_offsets_NoDup (W - tw) sw) | apply (axis_offsets_NoDup (H - th) sh)];
    assumption.
Qed.

Lemma gridCropCorners_NoDup_witness :
  NoDup [(0, 0); (0, 4); (4, 0); (4, 4)].
Proof.
  apply (gridCropCorners_NoDup 8 8 4 4 4 4 true); try lia.
  reflexivity.
Defined.

Lemma range_len_ceil (stop step : Z) :
  0 < step -> 0 <= stop ->
  PyRange.range_len 0 stop step = Z.to_nat ((stop + step - 1) / step).
Proof.
  intros Hs Hstop. unfold PyRange.range_len.
  destruct (Z.ltb_spec 0 step); [| lia].
  destruct (Z.ltb_spec 0 stop); cbn [andb].
  - f_equal. replace (stop + step - 1) with (stop - 1 - 0 + 1 * step) by lia.
    rewrite Z.div_add by lia. lia.
  - destruct (Z.ltb_spec step 0); [lia |]. cbn [andb].
    assert (stop = 0) as -> by lia.
    rewrite Z.div_small by lia. reflexivity.
Qed.

Lemma range_length (stop step : Z) (l : list Z) :
  0 < step -> 0 <= stop -> PyRange.range 0 stop step = Ok l ->
  List.length l = Z.to_nat ((stop + step - 1) / step).
Proof.
  intros Hs Hstop. rewrite (range_pos_ok stop step Hs).
  intros E. injection E as <-.
  rewrite length_map, length_seq. apply range_len_ceil; assumption.
Qed.

(** X3: for a tile that is not larger than the raster and positive
    strides, [_gridCropCorners] with [include_excess] returns
    (ceil((W - tw) / sw) + 1) * (ceil((H - th) / sh) + 1) corners. *)
Theorem gridCropCorners_count (W H tw th sw sh : Z) (corners : list (Z * Z)) :
  0 < sw -> 0 < sh -> tw <= W -> th <= H ->
  _gridCropCorners (W, H) (tw, th) (Some (sw, sh)) true = Ok corners ->
  List.length corners
  = ((Z.to_nat ((W - tw + sw - 1) / sw) + 1)
     * (Z.to_nat ((H - th + sh - 1) / sh) + 1))%nat.
Proof.
  intros Hsw Hsh Htw Hth E.
  destruct (gridCropCorners_offsets _ _ _ _ _ _ _ _ E) as (cs & rs & Hcs & Hrs & ->).
  rewrite (flat_map_constant_length (c := List.length (rs ++ [H - th])))
    by (intros; apply length_map).
  rewrite !length_app. cbn [List.length].
  rewrite (range_length (W - tw) sw cs Hsw ltac:(lia) Hcs).
  rewrite (range_length (H - th) sh rs Hsh ltac:(lia) Hrs).
  reflexivity.
Qed.

Lemma gridCropCorners_count_witness :
  List.length [(0,0);(0,4);(0,6);(4,0);(4,4);(4,6);(6,0);(6,4);(6,6)]
  = ((Z.to_nat ((10 - 4 + 4 - 1) / 4) + 1)
     * (Z.to_nat ((10 - 4 + 4 - 1) / 4) + 1))%nat.
Proof.
  apply (gridCropCorners_count 10 10 4 4 4 4); try lia.
  reflexivity.
Defined.

(** X4: without [include_excess], and for positive strides, every tile
    ends before the right and the bottom edge of the raster: the last
    column and the last row lie in no footprint, whatever the sizes. *)
Theorem no_excess_leaves_edges_uncovered (W H tw th sw sh : Z)
    (corners : list (Z * Z)) :
  0 < sw -> 0 < sh ->
  _gridCropCorners (W, H) (tw, th) (Some (sw, sh)) false = Ok corners ->
  forall x y corner, In corner corners ->
    in_footprint corner (tw, th) x y -> x < W - 1 /\ y < H - 1.
Proof.
  intros Hsw Hsh E x y [c r] Hin Hf.
  destruct (gridCropCorners_offsets _ _ _ _ _ _ _ _ E) as (cs & rs & Hcs & Hrs & ->).
  apply in_corner_product in Hin. destruct Hin as [Hc Hr].
  apply (in_range_pos (W - tw) sw Hsw cs c Hcs) in Hc.
  apply (in_range_pos (H - th) sh Hsh rs r Hrs) in Hr.
  unfold in_footprint in Hf. cbn [fst snd] in Hf. lia.
Qed.

Lemma no_excess_leaves_edges_uncovered_witness :
  0 < 4 /\
  forall x y corner, In corner [(0, 0); (0, 4); (4, 0); (4, 4)] ->
    in_footprint corner (4, 4) x y -> x < 10 - 1 /\ y < 10 - 1.
Proof.
  split; [lia |].
  apply (no_excess_leaves_edges_uncovered 10 10 4 4 4 4); try lia.
  reflexivity.
Defined.

(* ================================================================== *)
(** * Cropping, and cropping followed by stitching *)



Lemma pixel_crop (im : Image) (x0 y0 x1 y1 : Z) (i j : nat) :
  (i < Z.to_nat (x1 - x0))%nat -> (j < Z.to_nat (y1 - y0))%nat ->
  pixel (PIL.crop im (x0, y0, x1, y1)) i j
  = if (0 <=? x0 + Z.of_nat i) &&
       (x0 + Z.of_nat i <? Z.of_nat (fst (size im))) &&
       (0 <=? y0 + Z.of_nat j) &&
       (y0 + Z.of_nat j <? Z.of_nat (snd (size im)))
    then pixel im (Z.to_nat (x0 + Z.of_nat i)) (Z.to_nat (y0 + Z.of_nat j))
    else 0.
Proof.
  intros Hi Hj. unfold pixel at 1. unfold Np.get, asarray, PIL.crop.
  cbn [Np.data pixels].
  rewrite (nth_tabulate _ _ _ [] Hj). rewrite (nth_tabulate _ _ _ 0 Hi).
  reflexivity.
Qed.

Lemma wf_crop (im : Image) (box : Z * Z * Z * Z) :
  wf_image (PIL.crop im box) = true.
Proof.
  destruct box as [[[x0 y0] x1] y1]. unfold wf_image, PIL.crop.
  cbn [pixels size fst snd]. unfold Np.tabulate at 1.
  rewrite length_map, length_seq, Nat.eqb_refl. cbn [andb].
  apply forallb_forall. intros row Hrow. unfold Np.tabulate in Hrow.
  apply in_map_iff in Hrow. destruct Hrow as (i & <- & _).
  unfold Np.tabulate. rewrite length_map, length_seq. apply Nat.eqb_refl.
Qed.

Lemma gridCrop_crops (im : Image) (crop_dims : Z * Z)
    (stride_size : option (Z * Z)) (include_excess : bool) :
  gridCrop im crop_dims stride_size include_excess
  = (crop_corners <-
       _gridCropCorners (Z.of_nat (fst (size im)), Z.of_nat (snd (size im)))
                        crop_dims stride_size include_excess ;;
     Ok (map (crop_at im crop_dims) crop_corners))%result.
Proof. reflexivity. Qed.



(** X5: [gridCrop] never pads.  For a tile that is not larger than the
    image and positive strides, the crops are one per corner of
    [_gridCropCorners], in that order; each has the mode of the image and
    the size of the tile, lies inside the image, and holds at (i, j) the
    sample of the image at (corner.x + i, corner.y + j). *)
Theorem gridCrop_never_pads (im : Image) (tw th sw sh : Z)
    (include_excess : bool) (crops : list Crop) :
  0 < sw -> 0 < sh ->
  0 <= tw <= Z.of_nat (fst (size im)) ->
  0 <= th <= Z.of_nat (snd (size im)) ->
  gridCrop im (tw, th) (Some (sw, sh)) include_excess = Ok crops ->
  _gridCropCorners (Z.of_nat (fst (size im)), Z.of_nat (snd (size im)))
                   (tw, th) (Some (sw, sh)) include_excess
  = Ok (map corner crops) /\
  forall crop, In crop crops ->
    mode (img crop) = mode im /\
    size (img crop) = (Z.to_nat tw, Z.to_nat th) /\
    wf_image (img crop) = true /\
    0 <= crop_x crop /\ crop_x crop + tw <= Z.of_nat (fst (size im)) /\
    0 <= crop_y crop /\ crop_y crop + th <= Z.of_nat (snd (size im)) /\
    forall i j, (i < Z.to_nat tw)%nat -> (j < Z.to_nat th)%nat ->
      pixel (img crop) i j
      = pixel im (Z.to_nat (crop_x crop) + i) (Z.to_nat (crop_y crop) + j).
Proof.
  intros Hsw Hsh Htw Hth. rewrite gridCrop_crops.
  destruct (_gridCropCorners _ _ _ _) as [corners |] eqn:E; [| discriminate].
  cbn [rbind]. intros Ec. injection Ec as <-. split.
  - f_equal. rewrite map_map. cbn [crop_at corner]. symmetry. apply map_id.
  - intros crop Hin. apply in_map_iff in Hin.
    destruct Hin as ([c r] & <- & Hin).
    destruct (gridCropCorners_offsets _ _ _ _ _ _ _ _ E)
      as (cs & rs & Hcs & Hrs & ->).
    apply in_corner_product in Hin. destruct Hin as [Hc Hr].
    apply (axis_offsets_bounds _ sw cs include_excess c Hsw) in Hc;
      [| lia | exact Hcs].
    apply (axis_offsets_bounds _ sh rs include_excess r Hsh) in Hr;
      [| lia | exact Hrs].
    split; [reflexivity |].
    split; [cbn; f_equal; f_equal; lia |].
    split; [apply wf_crop |].
    unfold crop_x, crop_y. cbn [crop_at corner fst snd img].
    repeat (split; [lia |]).
    intros i j Hi Hj. rewrite pixel_crop by lia.
    destruct (Z.leb_spec 0 (c + Z.of_nat i)); [| lia].
    destruct (Z.ltb_spec (c + Z.of_nat i) (Z.of_nat (fst (size im)))); [| lia].
    destruct (Z.leb_spec 0 (r + Z.of_nat j)); [| lia].
    destruct (Z.ltb_spec (r + Z.of_nat j) (Z.of_nat (snd (size im)))); [| lia].
    cbn [andb]. f_equal; lia.
Qed.

Lemma gridCrop_never_pads_witness :
  _gridCropCorners (Z.of_nat (fst (size img_3x2)), Z.of_nat (snd (size img_3x2)))
                   (2, 2) (Some (1, 1)) true
  = Ok (map corner crops_3x2) /\
  forall crop, In crop crops_3x2 ->
    mode (img crop) = mode img_3x2 /\
    size (img crop) = (Z.to_nat 2, Z.to_nat 2) /\
    wf_image (img crop) = true /\
    0 <= crop_x crop /\ crop_x crop + 2 <= Z.of_nat (fst (size img_3x2)) /\
    0 <= crop_y crop /\ crop_y crop + 2 <= Z.of_nat (snd (size img_3x2)) /\
    forall i j, (i < Z.to_nat 2)%nat -> (j < Z.to_nat 2)%nat ->
      pixel (img crop) i j
      = pixel img_3x2 (Z.to_nat (crop_x crop) + i) (Z.to_nat (crop_y crop) + j).
Proof.
  apply (gridCrop_never_pads img_3x2 2 2 1 1 true crops_3x2);
    try (cbn; lia).
  reflexivity.
Defined.


Lemma same_mode_all (l : list Crop) (m : pil_mode) :
  (forall c, In c l -> mode (img c) = m) -> same_mode l.
Proof.
  intros Hall. destruct l as [| c l]; [exact I |].
  cbn [same_mode]. apply Forall_forall. intros c' Hin.
  rewrite (Hall c' Hin), (Hall c (or_introl eq_refl)). reflexivity.
Qed.






(* ================================================================== *)
(** * Further properties of the stitching *)

(** A value that the blend keeps against every sample brought to the
    pixel is still there after the loop. *)
Lemma fold_px_fixed (bl : Z -> Z -> Z) (x y : nat) (a : Z) (l : list Crop) :
  (forall c, In c l -> covers x y c = true -> bl a (sample x y c) = a) ->
  fold_left (px_step bl x y) l a = a.
Proof.
  induction l as [| c l IH]; intros Hall; [reflexivity |].
  cbn [fold_left]. unfold px_step at 2.
  destruct (covers x y c) eqn:Ec.
  - rewrite (Hall c (or_introl eq_refl) Ec).
    apply IH. intros c' Hin. apply Hall. right. exact Hin.
  - apply IH. intros c' Hin. apply Hall. right. exact Hin.
Qed.



(** X7: under 'and', the array [stitchCrops] builds is the array of
    zeros it allocates, whatever the tiles hold (non-empty sequence of
    one mode, corners not negative): every tile is combined with a buffer
    that holds 0 and keeps holding 0. *)
Theorem stitchCrops_and_is_zero (pf : platform) (crop_imgs : list Crop) :
  crop_imgs <> [] -> same_mode crop_imgs -> corners_ok crop_imgs ->
  exists img_np,
    Np.zeros (snd (find_dims crop_imgs), fst (find_dims crop_imgs))
    = Ok img_np /\
    run (stitch_array (np_int pf) crop_imgs "and") = ([], Ok img_np) /\
    run (stitchCrops pf crop_imgs "and") = ([], fromarray pf img_np).
Proof.
  intros Hne Hm Hok.
  destruct (stitch_array_fit (np_int pf) crop_imgs "and" Hne Hm Hok)
    as (img_np & E & Hsh & Hno & Hpx).
  rewrite method_warnings_known in E by reflexivity.
  destruct (find_dims_nonneg crop_imgs) as [Hw Hh].
  exists img_np. rewrite (zeros_ok _ _ Hh Hw).
  split; [| split; [exact E | apply stitchCrops_converts, E]].
  f_equal. symmetry. apply normal_ext;
    [exact Hno | apply normal_build | exact Hsh |].
  intros i j Hi Hj. rewrite Hsh in Hi, Hj.
  rewrite (Hpx i j Hi Hj), get_build by assumption.
  apply fold_px_fixed. intros c _ _. apply Z.land_0_l.
Qed.

Lemma stitchCrops_and_is_zero_witness :
  exists img_np,
    Np.zeros (snd (find_dims [crop31; crop11]),
              fst (find_dims [crop31; crop11])) = Ok img_np /\
    run (stitch_array Np.Long32 [crop31; crop11] "and") = ([], Ok img_np) /\
    run (stitchCrops long32 [crop31; crop11] "and")
    = ([], fromarray long32 img_np).
Proof.
  apply (stitchCrops_and_is_zero long32 [crop31; crop11]);
    [discriminate | cbn; repeat constructor
     | unfold corners_ok; repeat constructor; cbn; lia].
Defined.



Example gap_between_tiles :
  run (stitchCrops long32 [crop_of_2; crop11] "or")
  = ([], Ok (mk_Image mode_I (3%nat, 1%nat) [[2; 0; 1]])).
Proof. vm_compute. reflexivity. Qed.

(* ------------------------------------------------------------------ *)
(** ** Tiles that do not overlap *)







(** X9: [stitchBinary] returns on no sequence of crops that is not
    empty.  When one of the crops holds a PIL image, the loop that is to
    check the crops raises [AttributeError], for an image has no
    [astype]; when all hold arrays, the loop that finds the dimensions
    raises [TypeError], for the [size] of an array is an integer.  No
    warning is shown, whatever the method name. *)
Theorem stitchBinary_raises (pf : platform) (crop_imgs : list ObjCrop)
    (method : string) :
  crop_imgs <> [] ->
  run (stitchBinary pf crop_imgs method)
  = ([], Raise (if existsb is_pil_image crop_imgs
                then AttributeError else TypeError)).
Proof.
  intros Hne. destruct crop_imgs as [| c rest]; [contradiction |].
  unfold run. apply stitchBinary_outcome.
Qed.

Lemma stitchBinary_raises_witness :
  run (stitchBinary long32 [bin_array_1; bin_image_1] "or")
  = ([], Raise AttributeError).
Proof.
  apply (stitchBinary_raises long32 [bin_array_1; bin_image_1] "or").
  discriminate.
Defined.

Lemma check_modes_mismatch (mode0 : pil_mode) (l : list Crop) :
  Exists (fun c => mode (img c) <> mode0) l ->
  check_modes mode0 l = Raise AssertionError.
Proof.
  induction l as [| c l IH]; intros Hex; [inversion Hex |].
  cbn [check_modes].
  destruct (pil_mode_eqb_spec (mode (img c)) mode0) as [E | N].
  - apply IH. inversion Hex as [? ? Hc | ? ? Hl]; subst; [contradiction | exact Hl].
  - reflexivity.
Qed.

(** X10: when a crop has another mode than the first one, [stitchCrops]
    fails with [AssertionError] before any blending: no warning is
    emitted, whatever the method name, the sizes and the corners. *)
Theorem stitchCrops_mode_mismatch (pf : platform) (c : Crop)
    (rest : list Crop) (method : string) :
  Exists (fun c' => mode (img c') <> mode (img c)) rest ->
  run (stitchCrops pf (c :: rest) method) = ([], Raise AssertionError).
Proof.
  intros Hex. apply stitchCrops_raises. unfold run.
  rewrite stitch_array_cons.
  rewrite check_modes_mismatch; [reflexivity |].
  apply Exists_cons_tl. exact Hex.
Qed.

Lemma stitchCrops_mode_mismatch_witness :
  run (stitchCrops long32 [crop_of_2; crop_rgb_like] "xor")
  = ([], Raise AssertionError).
Proof.
  apply (stitchCrops_mode_mismatch long32 crop_of_2 [crop_rgb_like] "xor").
  apply Exists_cons_hd. discriminate.
Defined.

(* ------------------------------------------------------------------ *)
(** ** A tile across the left or the upper edge *)

Lemma slice_range_straddle (n len : nat) (a : Z) :
  a < 0 <= a + Z.of_nat len -> (len <= n)%nat ->
  snd (Np.slice_range n a (a + Z.of_nat len)) = 0%nat.
Proof.
  intros Ha Hn. unfold Np.slice_range, Np.adjust. cbn [snd].
  destruct (Z.ltb_spec a 0); [| lia].
  destruct (Z.ltb_spec (a + Z.of_nat len) 0); lia.
Qed.

Lemma bdim_empty (len : nat) : (2 <= len)%nat -> Np.bdim 0 len = None.
Proof.
  intros Hl. unfold Np.bdim.
  destruct (Nat.eqb_spec 0 len); [lia |].
  destruct (Nat.eqb_spec 0 1); [lia |].
  destruct (Nat.eqb_spec len 1); [lia | reflexivity].
Qed.

(** The slice of the buffer for a crop that straddles the left or the
    upper edge is empty along that axis, and no operation with the crop
    is defined on it. *)
Lemma section_op_straddle {C} (f : Z -> Z -> C) (img_np : Np.ndarray Z)
    (crop : Crop) :
  (crop_x crop < 0 <= crop_x crop + crop_w crop /\
   (2 <= fst (size (img crop)) <= snd (Np.shape img_np))%nat) \/
  (crop_y crop < 0 <= crop_y crop + crop_h crop /\
   (2 <= snd (size (img crop)) <= fst (Np.shape img_np))%nat) ->
  Np.broadcast2 0 0 f (Np.getslice 0 img_np (crop_idxs crop))
                (asarray (img crop))
  = Raise ValueError.
Proof.
  unfold crop_x, crop_y, crop_w, crop_h.
  intros Hs. unfold Np.broadcast2, Np.getslice, crop_idxs.
  destruct (Np.slice_range (fst (Np.shape img_np)) _ _) as [rlo rlen] eqn:Er.
  destruct (Np.slice_range (snd (Np.shape img_np)) _ _) as [clo clen] eqn:Ec.
  cbn [Np.shape Np.build asarray fst snd].
  destruct Hs as [[Hx Hw] | [Hy Hh]].
  - pose proof (slice_range_straddle (snd (Np.shape img_np))
                  (fst (size (img crop))) (fst (corner crop)) Hx
                  ltac:(lia)) as Hz.
    rewrite Ec in Hz. cbn [snd] in Hz. rewrite Hz.
    rewrite (bdim_empty _ (proj1 Hw)).
    destruct (Np.bdim rlen _); reflexivity.
  - pose proof (slice_range_straddle (fst (Np.shape img_np))
                  (snd (size (img crop))) (snd (corner crop)) Hy
                  ltac:(lia)) as Hz.
    rewrite Er in Hz. cbn [snd] in Hz. rewrite Hz.
    rewrite (bdim_empty _ (proj1 Hh)). reflexivity.
Qed.

Lemma stitch_crop_straddle (p : Np.c_long) (lineno : Z) (method : string)
    (img_np : Np.ndarray Z) (crop : Crop) (ws : list warning) :
  (crop_x crop < 0 <= crop_x crop + crop_w crop /\
   (2 <= fst (size (img crop)) <= snd (Np.shape img_np))%nat) \/
  (crop_y crop < 0 <= crop_y crop + crop_h crop /\
   (2 <= snd (size (img crop)) <= fst (Np.shape img_np))%nat) ->
  stitch_crop p lineno method img_np crop ws
  = (round_log lineno method ws, Raise ValueError).
Proof.
  intros Hs.
  unfold stitch_crop, bind, lift.
  unfold Np.bitwise_or, Np.bitwise_and, Np.mean2.
  rewrite !(section_op_straddle _ _ _ Hs). cbn [rbind].
  destruct (method =? "or")%string eqn:Eor.
  { rewrite round_log_known by (unfold known_method; rewrite Eor; reflexivity).
    reflexivity. }
  destruct (method =? "and")%string eqn:Eand.
  { rewrite round_log_known by (unfold known_method; rewrite Eor, Eand;
                                reflexivity).
    reflexivity. }
  destruct (method =? "average")%string eqn:Eavg.
  - rewrite round_log_known by (unfold known_method;
                                rewrite Eor, Eand, Eavg; reflexivity).
    reflexivity.
  - rewrite warn_round_log by (unfold known_method;
                               rewrite Eor, Eand, Eavg; reflexivity).
    reflexivity.
Qed.

(** X12: a tile is not clipped at the left or the upper edge.  When the
    first crop is at least 2 wide and starts left of x = 0 without ending
    there (or is at least 2 high and starts above y = 0), [stitchCrops]
    on crops of one mode fails with the [ValueError] of numpy, after the
    warning of an unknown method name if there is one. *)
Theorem stitchCrops_straddling_tile_fails (pf : platform) (c : Crop)
    (rest : list Crop) (method : string) :
  same_mode (c :: rest) ->
  (crop_x c < 0 <= crop_x c + crop_w c /\ (2 <= fst (size (img c)))%nat) \/
  (crop_y c < 0 <= crop_y c + crop_h c /\ (2 <= snd (size (img c)))%nat) ->
  run (stitchCrops pf (c :: rest) method)
  = (method_warnings method, Raise ValueError).
Proof.
  intros Hm Hs. apply stitchCrops_raises. unfold run.
  rewrite stitch_array_cons. cbn [same_mode] in Hm.
  rewrite (check_modes_ok _ _ Hm).
  destruct (find_dims_nonneg (c :: rest)) as [Hw Hh].
  rewrite (zeros_ok _ _ Hh Hw). cbn [for_each]. unfold bind.
  rewrite stitch_crop_straddle; [reflexivity |].
  cbn [Np.shape Np.build fst snd].
  pose proof (find_dims_eq (c :: rest)) as Ed.
  pose proof (max_of_ge (map crop_w (c :: rest)) (crop_w c)
                (or_introl eq_refl)) as Hcw.
  pose proof (max_of_ge (map crop_h (c :: rest)) (crop_h c)
                (or_introl eq_refl)) as Hch.
  pose proof (max_of_nonneg (map crop_x (c :: rest))).
  pose proof (max_of_nonneg (map crop_y (c :: rest))).
  rewrite Ed. cbn [fst snd]. unfold crop_w, crop_h in *.
  destruct Hs as [[Hx Hl] | [Hy Hl]]; [left | right]; lia.
Qed.

Lemma stitchCrops_straddling_tile_fails_witness :
  run (stitchCrops long32 [crop_left; crop31] "or")
  = (method_warnings "or", Raise ValueError).
Proof.
  apply (stitchCrops_straddling_tile_fails long32 crop_left [crop31] "or").
  - cbn. repeat constructor.
  - left. cbn. lia.
Defined.

(* ------------------------------------------------------------------ *)
(** ** The order of the tiles *)

Lemma max_of_perm (l l' : list Z) :
  Permutation.Permutation l l' -> max_of l = max_of l'.
Proof.
  induction 1 as [| v l l' _ IH | u v l | l l' l'' _ IH1 _ IH2].
  - reflexivity.
  - change (Z.max v (max_of l) = Z.max v (max_of l')). rewrite IH. reflexivity.
  - change (Z.max v (Z.max u (max_of l)) = Z.max u (Z.max v (max_of l))). lia.
  - congruence.
Qed.

Lemma find_dims_perm (l l' : list Crop) :
  Permutation.Permutation l l' -> find_dims l = find_dims l'.
Proof.
  intros Hp. rewrite !find_dims_eq.
  rewrite (max_of_perm _ _ (Permutation.Permutation_map crop_x Hp)).
  rewrite (max_of_perm _ _ (Permutation.Permutation_map crop_y Hp)).
  rewrite (max_of_perm _ _ (Permutation.Permutation_map crop_w Hp)).
  rewrite (max_of_perm _ _ (Permutation.Permutation_map crop_h Hp)).
  reflexivity.
Qed.

Lemma fold_or_perm (x y : nat) (l l' : list Crop) :
  Permutation.Permutation l l' ->
  forall a, fold_left (px_step Z.lor x y) l a
            = fold_left (px_step Z.lor x y) l' a.
Proof.
  induction 1 as [| c l l' _ IH | c1 c2 l | l l' l'' _ IH1 _ IH2]; intros a.
  - reflexivity.
  - cbn [fold_left]. apply IH.
  - cbn [fold_left]. f_equal. unfold px_step.
    destruct (covers x y c1), (covers x y c2); try reflexivity.
    rewrite <- !Z.lor_assoc. f_equal. apply Z.lor_comm.
  - rewrite IH1. apply IH2.
Qed.

Lemma same_mode_common (l : list Crop) :
  l <> [] -> same_mode l ->
  exists m, forall c, In c l -> mode (img c) = m.
Proof.
  intros Hne Hm. destruct l as [| c0 l]; [contradiction |].
  exists (mode (img c0)). cbn [same_mode] in Hm.
  rewrite Forall_forall in Hm. exact Hm.
Qed.

(** X13: under 'or' the order of the tiles does not matter: for a
    non-empty sequence of one mode with corners that are not negative,
    [stitchCrops] returns the same raster on every permutation of the
    sequence. *)
Theorem stitchCrops_or_order_independent (pf : platform)
    (crop_imgs crop_imgs' : list Crop) :
  Permutation.Permutation crop_imgs crop_imgs' ->
  crop_imgs <> [] -> same_mode crop_imgs -> corners_ok crop_imgs ->
  run (stitchCrops pf crop_imgs' "or") = run (stitchCrops pf crop_imgs "or").
Proof.
  intros Hp Hne Hm Hok.
  assert (crop_imgs' <> []) as Hne'.
  { intros ->. apply Permutation.Permutation_sym in Hp.
    apply Permutation.Permutation_nil in Hp. contradiction. }
  assert (same_mode crop_imgs') as Hm'.
  { destruct (same_mode_common _ Hne Hm) as (m & Hall).
    apply (same_mode_all _ m). intros c Hc. apply Hall.
    apply (Permutation.Permutation_in c (Permutation.Permutation_sym Hp) Hc). }
  assert (corners_ok crop_imgs') as Hok'.
  { unfold corners_ok in *. rewrite Forall_forall in *. intros c Hc.
    apply Hok.
    apply (Permutation.Permutation_in c (Permutation.Permutation_sym Hp) Hc). }
  destruct (stitch_array_fit (np_int pf) crop_imgs "or" Hne Hm Hok)
    as (out & E & Hsh & Hno & Hpx).
  destruct (stitch_array_fit (np_int pf) crop_imgs' "or" Hne' Hm' Hok')
    as (out' & E' & Hsh' & Hno' & Hpx').
  unfold buffer_shape in *.
  rewrite <- (find_dims_perm _ _ Hp) in Hsh', Hpx'.
  rewrite (stitchCrops_converts _ _ _ _ _ E).
  rewrite (stitchCrops_converts _ _ _ _ _ E'). do 2 f_equal.
  apply normal_ext; [assumption | assumption | congruence |].
  intros i j Hi Hj. rewrite Hsh' in Hi, Hj.
  rewrite (Hpx i j Hi Hj), (Hpx' i j Hi Hj).
  change (blend_px (np_int pf) "or") with Z.lor.
  symmetry. apply fold_or_perm, Hp.
Qed.

Lemma stitchCrops_or_order_independent_witness :
  run (stitchCrops long32 [crop11; crop31] "or")
  = run (stitchCrops long32 [crop31; crop11] "or").
Proof.
  apply (stitchCrops_or_order_independent long32
           [crop31; crop11] [crop11; crop31]);
    [apply Permutation.perm_swap | discriminate | cbn; repeat constructor
     | unfold corners_ok; repeat constructor; cbn; lia].
Defined.

(* ------------------------------------------------------------------ *)
(** ** The range of the samples *)

Lemma lor_below (n a b : Z) :
  0 <= n -> 0 <= a < 2 ^ n -> 0 <= b < 2 ^ n -> 0 <= Z.lor a b < 2 ^ n.
Proof.
  intros Hn Ha Hb.
  assert (0 <= Z.lor a b) as H0 by (apply Z.lor_nonneg; lia).
  split; [exact H0 |].
  destruct (Z.eq_dec (Z.lor a b) 0) as [-> | Hnz];
    [apply Z.pow_pos_nonneg; lia |].
  apply Z.log2_lt_pow2; [lia |].
  rewrite Z.log2_lor by lia.
  assert (Z.log2 a < n /\ Z.log2 b < n); [| lia].
  assert (0 < n).
  { destruct (Z.eq_dec n 0) as [-> | ?]; [| lia].
    change (2 ^ 0) with 1 in *.
    assert (a = 0) by lia. assert (b = 0) by lia. subst.
    cbn in Hnz. contradiction. }
  split.
  - destruct (Z.eq_dec a 0) as [-> | ?]; [cbn; lia |].
    apply Z.log2_lt_pow2; lia.
  - destruct (Z.eq_dec b 0) as [-> | ?]; [cbn; lia |].
    apply Z.log2_lt_pow2; lia.
Qed.

Lemma land_below (n a b : Z) :
  0 <= n -> 0 <= a < 2 ^ n -> 0 <= b < 2 ^ n -> 0 <= Z.land a b < 2 ^ n.
Proof.
  intros Hn Ha Hb.
  assert (0 <= Z.land a b) as H0 by (apply Z.land_nonneg; lia).
  split; [exact H0 |].
  destruct (Z.eq_dec (Z.land a b) 0) as [-> | Hnz];
    [apply Z.pow_pos_nonneg; lia |].
  apply Z.log2_lt_pow2; [lia |].
  pose proof (Z.log2_land a b ltac:(lia) ltac:(lia)) as Hl.
  destruct (Z.eq_dec a 0) as [-> | ?];
    [rewrite Z.land_0_l in Hnz; contradiction |].
  assert (Z.log2 a < n) by (apply Z.log2_lt_pow2; lia).
  lia.
Qed.

Lemma mean_below (m a b : Z) :
  0 <= a < m -> 0 <= b < m -> 0 <= Z.quot (a + b) 2 < m.
Proof.
  intros Ha Hb. rewrite Z.quot_div_nonneg by lia.
  split; [apply Z.div_pos; lia | apply Z.div_lt_upper_bound; lia].
Qed.

Lemma blend_px_below (p : Np.c_long) (method : string) (n a b : Z) :
  0 <= n <= Np.bits p - 2 -> 0 <= a < 2 ^ n -> 0 <= b < 2 ^ n ->
  0 <= blend_px p method a b < 2 ^ n.
Proof.
  intros Hn Ha Hb. unfold blend_px.
  destruct (method =? "or")%string; [apply lor_below; [lia | |]; assumption |].
  destruct (method =? "and")%string;
    [apply land_below; [lia | |]; assumption |].
  rewrite trunc_half, wrap_small; [apply mean_below; assumption |].
  assert (2 * 2 ^ n <= 2 ^ (Np.bits p - 1)); [| lia].
  replace (2 * 2 ^ n) with (2 ^ (n + 1))
    by (rewrite Z.pow_add_r by lia; lia).
  apply Z.pow_le_mono_r; lia.
Qed.

Lemma sample_below (n : Z) (x y : nat) (c : Crop) :
  0 <= n -> samples_below n c -> 0 <= sample x y c < 2 ^ n.
Proof.
  intros Hn. unfold samples_below, sample, pixel, Np.get, asarray.
  cbn [Np.data]. rewrite Forall_forall. intros Hb.
  pose proof (Z.pow_pos_nonneg 2 n ltac:(lia) Hn) as Hpos.
  set (i := Z.to_nat (Z.of_nat y - snd (corner c))).
  set (j := Z.to_nat (Z.of_nat x - fst (corner c))).
  destruct (Nat.lt_ge_cases i (List.length (pixels (img c)))) as [Hi | Hi].
  - specialize (Hb _ (nth_In _ [] Hi)). rewrite Forall_forall in Hb.
    destruct (Nat.lt_ge_cases j (List.length (nth i (pixels (img c)) [])))
      as [Hj | Hj].
    + apply (Hb _ (nth_In _ 0 Hj)).
    + rewrite (nth_overflow _ 0 Hj). lia.
  - rewrite (nth_overflow _ [] Hi). destruct j; cbn; lia.
Qed.

Lemma fold_px_invariant (P : Z -> Prop) (bl : Z -> Z -> Z) (x y : nat)
    (l : list Crop) :
  (forall a c, P a -> In c l -> P (bl a (sample x y c))) ->
  forall a, P a -> P (fold_left (px_step bl x y) l a).
Proof.
  induction l as [| c l IH]; intros Hstep a Ha; [exact Ha |].
  cbn [fold_left]. apply IH.
  - intros a' c' Ha' Hin. apply Hstep; [exact Ha' | right; exact Hin].
  - unfold px_step. destruct (covers x y c); [| exact Ha].
    apply Hstep; [exact Ha | left; reflexivity].
Qed.

(** X14: the bit depth is kept.  When every sample of every tile is an
    unsigned integer of [n] bits (0 <= v < 2^n; n = 8 for mode 'L') and
    [n] is at most the width of the C long less 2, so that no sum leaves
    the C long, every element of the array [stitchCrops] builds is an
    unsigned integer of [n] bits, under every method name (non-empty
    sequence of one mode, corners not negative). *)
Theorem stitchCrops_keeps_bit_depth (pf : platform) (n : Z)
    (crop_imgs : list Crop) (method : string) :
  0 <= n <= Np.bits (np_int pf) - 2 ->
  crop_imgs <> [] -> same_mode crop_imgs -> corners_ok crop_imgs ->
  Forall (samples_below n) crop_imgs ->
  exists img_np,
    run (stitch_array (np_int pf) crop_imgs method)
    = (method_warnings method, Ok img_np) /\
    run (stitchCrops pf crop_imgs method)
    = (method_warnings method, fromarray pf img_np) /\
    forall x y, (x < snd (Np.shape img_np))%nat ->
                (y < fst (Np.shape img_np))%nat ->
      0 <= Np.get 0 img_np y x < 2 ^ n.
Proof.
  intros Hn Hne Hm Hok Hb.
  destruct (stitch_array_fit (np_int pf) crop_imgs method Hne Hm Hok)
    as (img_np & E & Hsh & _ & Hpx).
  exists img_np. split; [exact E |].
  split; [apply stitchCrops_converts, E |].
  rewrite Hsh. intros x y Hx Hy. rewrite (Hpx y x Hy Hx).
  apply (fold_px_invariant (fun v => 0 <= v < 2 ^ n)).
  - intros a c Ha Hin. apply blend_px_below; [exact Hn | exact Ha |].
    apply sample_below; [lia |].
    rewrite Forall_forall in Hb. apply Hb, Hin.
  - pose proof (Z.pow_pos_nonneg 2 n ltac:(lia) ltac:(lia)). lia.
Qed.

Lemma stitchCrops_keeps_bit_depth_witness :
  exists img_np,
    run (stitch_array Np.Long32 [crop31; crop11] "average")
    = (method_warnings "average", Ok img_np) /\
    run (stitchCrops long32 [crop31; crop11] "average")
    = (method_warnings "average", fromarray long32 img_np) /\
    forall x y, (x < snd (Np.shape img_np))%nat ->
                (y < fst (Np.shape img_np))%nat ->
      0 <= Np.get 0 img_np y x < 2 ^ 8.
Proof.
  apply (stitchCrops_keeps_bit_depth long32 8 [crop31; crop11] "average");
    [cbn; lia | discriminate | cbn; repeat constructor
     | unfold corners_ok; repeat constructor; cbn; lia
     | repeat constructor; cbn; lia].
Defined.

(* ------------------------------------------------------------------ *)
(** ** Unknown method names *)



Example xor_warns_once :
  run (stitchCrops long32 [crop_of_2; crop_of_3] "xor")
  = ([UserWarning
        "Invalid method. Reverting to 'average'. Your method: xor" 124],
     Ok (mk_Image mode_I (2%nat, 1%nat) [[1; 1]])).
Proof. vm_compute. reflexivity. Qed.

(* ================================================================== *)
(** * Plotting on a grid *)

Lemma range_upto (n : Z) :
  PyRange.range 0 n 1 = Ok (map Z.of_nat (seq 0 (Z.to_nat n))).
Proof.
  unfold PyRange.range. cbn [Z.eqb]. f_equal.
  assert (PyRange.range_len 0 n 1 = Z.to_nat n) as ->.
  { unfold PyRange.range_len. cbn [Z.ltb Z.compare andb].
    destruct (Z.ltb_spec 0 n); cbn [andb].
    - rewrite Z.div_1_r. lia.
    - lia. }
  apply map_ext. intros i. lia.
Qed.

Section Grid.

Context {A : Type}.

Lemma for_in_ok {T} (l : list T) (body : T -> Plt.P A unit)
    (ev : T -> list (Plt.event A)) :
  (forall x, In x l -> forall log, body x log = (log ++ ev x, Ok tt)) ->
  forall log, Plt.for_in l body log = (log ++ flat_map ev l, Ok tt).
Proof.
  induction l as [| x l IH]; intros Hbody log.
  - cbn. rewrite app_nil_r. reflexivity.
  - cbn [Plt.for_in flat_map]. unfold Plt.bind.
    rewrite (Hbody x (or_introl eq_refl)).
    rewrite IH by (intros y Hy; apply Hbody; right; exact Hy).
    rewrite app_assoc. reflexivity.
Qed.

Lemma getitem_ok (d : A) (l : list A) (k : nat) :
  (k < List.length l)%nat -> Plt.getitem l (Z.of_nat k) = Ok (nth k l d).
Proof.
  intros Hk. unfold Plt.getitem. cbv zeta.
  destruct (Z.ltb_spec (Z.of_nat k) 0); [lia |].
  destruct (Z.ltb_spec (Z.of_nat k) 0); [lia |].
  rewrite Nat2Z.id.
  destruct (nth_error l k) as [a |] eqn:E.
  - rewrite (nth_error_nth _ _ d E). reflexivity.
  - apply nth_error_None in E. lia.
Qed.

Lemma getitem_short (l : list A) (k : nat) :
  (List.length l <= k)%nat -> Plt.getitem l (Z.of_nat k) = Raise IndexError.
Proof.
  intros Hk. unfold Plt.getitem. cbv zeta.
  destruct (Z.ltb_spec (Z.of_nat k) 0); [lia |].
  destruct (Z.ltb_spec (Z.of_nat k) 0); [lia |].
  rewrite Nat2Z.id. apply nth_error_None in Hk. rewrite Hk. reflexivity.
Qed.

Lemma subplot_ok (rows cols : nat) (index : Z) (log : list (Plt.event A)) :
  (0 < rows)%nat -> (0 < cols)%nat ->
  1 <= index <= 2 * Z.of_nat rows * Z.of_nat cols ->
  Plt.subplot (2 * Z.of_nat rows) (Z.of_nat cols) index log
  = (log ++ [Plt.Subplot (2 * Z.of_nat rows) (Z.of_nat cols) index], Ok tt).
Proof.
  intros Hr Hc Hi. unfold Plt.subplot.
  destruct (Z.ltb_spec 0 (2 * Z.of_nat rows)); [| lia].
  destruct (Z.ltb_spec 0 (Z.of_nat cols)); [| lia].
  destruct (Z.leb_spec 1 index); [| lia].
  destruct (Z.leb_spec index (2 * Z.of_nat rows * Z.of_nat cols)); [| lia].
  reflexivity.
Qed.

Variable d : A.
Variables imgs_list imgs2_list : list A.
Variables rows cols : nat.

(** The body of the inner loop, for a cell of the grid and lists that
    reach it. *)
Lemma cell_ok (i j : nat) (log : list (Plt.event A)) :
  (i < rows)%nat -> (j < cols)%nat ->
  (cols * i + j < List.length imgs_list)%nat ->
  (cols * i + j < List.length imgs2_list)%nat ->
  Plt.bind (Plt.lift (Plt.getitem imgs_list
                        (Z.of_nat cols * Z.of_nat i + Z.of_nat j)))
    (fun img =>
     Plt.bind (Plt.lift (Plt.getitem imgs2_list
                           (Z.of_nat cols * Z.of_nat i + Z.of_nat j)))
       (fun img2 =>
        Plt.bind (Plt.subplot (2 * Z.of_nat rows) (Z.of_nat cols)
                    (2 * Z.of_nat i * Z.of_nat cols + Z.of_nat j + 1))
          (fun _ =>
           Plt.bind (Plt.imshow img)
             (fun _ =>
              Plt.bind (Plt.subplot (2 * Z.of_nat rows) (Z.of_nat cols)
                          ((2 * Z.of_nat i + 1) * Z.of_nat cols
                           + Z.of_nat j + 1))
                (fun _ => Plt.imshow img2))))) log
  = (log ++ Plt.cell_events rows cols d imgs_list imgs2_list i j, Ok tt).
Proof.
  intros Hi Hj Hl Hl2.
  replace (Z.of_nat cols * Z.of_nat i + Z.of_nat j)
    with (Z.of_nat (cols * i + j)) by lia.
  unfold Plt.bind, Plt.lift.
  rewrite (getitem_ok d _ _ Hl), (getitem_ok d _ _ Hl2).
  rewrite subplot_ok by nia. unfold Plt.imshow.
  rewrite subplot_ok by nia.
  unfold Plt.cell_events. rewrite <- !app_assoc. reflexivity.
Qed.

(** When both lists reach the last cell, every call succeeds and the
    figure receives the events of the cells, row by row. *)
Lemma grid_imshow_log :
  (rows * cols <= List.length imgs_list)%nat ->
  (rows * cols <= List.length imgs2_list)%nat ->
  Plt.run (Plt.grid_imshow (Z.of_nat rows, Z.of_nat cols)
                           imgs_list imgs2_list)
  = (flat_map (fun i =>
       flat_map (Plt.cell_events rows cols d imgs_list imgs2_list i)
                (seq 0 cols))
       (seq 0 rows),
     Ok tt).
Proof.
  intros Hl Hl2. unfold Plt.run, Plt.grid_imshow. cbn [fst snd].
  unfold Plt.bind at 1. unfold Plt.lift at 1.
  rewrite range_upto, Nat2Z.id.
  rewrite (for_in_ok _ _ (fun r =>
             flat_map (Plt.cell_events rows cols d imgs_list imgs2_list
                         (Z.to_nat r)) (seq 0 cols))).
  - cbn [app]. rewrite flat_map_concat_map, map_map, <- flat_map_concat_map.
    f_equal. apply flat_map_ext. intros i. rewrite Nat2Z.id. reflexivity.
  - intros r Hr log. apply in_map_iff in Hr. destruct Hr as (i & <- & Hi).
    apply in_seq in Hi. unfold Plt.bind at 1. unfold Plt.lift at 1.
    rewrite range_upto, Nat2Z.id.
    rewrite (for_in_ok _ _ (fun c =>
               Plt.cell_events rows cols d imgs_list imgs2_list i
                               (Z.to_nat c))).
    + f_equal. f_equal.
      rewrite flat_map_concat_map, map_map, <- flat_map_concat_map.
      apply flat_map_ext. intros j. rewrite !Nat2Z.id. reflexivity.
    + intros c Hc log'. apply in_map_iff in Hc. destruct Hc as (j & <- & Hj).
      apply in_seq in Hj. rewrite Nat2Z.id.
      apply cell_ok; nia.
Qed.

End Grid.

Lemma flat_map_nested {T U V} (f : T -> list U) (g : U -> list V) (l : list T) :
  flat_map g (flat_map f l) = flat_map (fun x => flat_map g (f x)) l.
Proof.
  induction l as [| x l IH]; [reflexivity |].
  cbn [flat_map]. rewrite flat_map_app, IH. reflexivity.
Qed.

Lemma flat_map_map {T U V} (h : T -> U) (f : U -> list V) (l : list T) :
  flat_map f (map h l) = flat_map (fun x => f (h x)) l.
Proof.
  induction l as [| x l IH]; [reflexivity |].
  cbn [map flat_map]. rewrite IH. reflexivity.
Qed.

Lemma flat_map_seq_shift {U} (g : nat -> list U) (len : nat) :
  forall a, flat_map g (seq a len)
            = flat_map (fun j => g (a + j)%nat) (seq 0 len).
Proof.
  induction len as [| len IH]; intros a; [reflexivity |].
  cbn [seq flat_map]. rewrite Nat.add_0_r. f_equal.
  rewrite (IH (S a)), <- seq_shift, flat_map_map.
  apply flat_map_ext. intros j. f_equal. lia.
Qed.

(** The cells of a grid, row by row, are numbered 0, 1, ... *)
Lemma grid_enum {U} (g : nat -> list U) (rows cols : nat) :
  flat_map (fun i => flat_map (fun j => g (cols * i + j)%nat) (seq 0 cols))
           (seq 0 rows)
  = flat_map g (seq 0 (rows * cols)).
Proof.
  induction rows as [| n IH]; [reflexivity |].
  rewrite seq_S, flat_map_app, IH. cbn [flat_map]. rewrite app_nil_r.
  replace (S n * cols)%nat with (n * cols + cols)%nat by lia.
  rewrite seq_app, flat_map_app. f_equal. cbn [Nat.add].
  rewrite (flat_map_seq_shift g cols (n * cols)).
  apply flat_map_ext. intros j. f_equal. lia.
Qed.

Lemma alternate_firstn {U} (d : U) (n : nat) :
  forall l l2 : list U,
  (n <= List.length l)%nat -> (n <= List.length l2)%nat ->
  flat_map (fun k => [nth k l d; nth k l2 d]) (seq 0 n)
  = flat_map (fun p => [fst p; snd p]) (combine (firstn n l) (firstn n l2)).
Proof.
  induction n as [| n IH]; intros l l2 Hl Hl2; [reflexivity |].
  destruct l as [| a l]; [cbn in Hl; lia |].
  destruct l2 as [| b l2]; [cbn in Hl2; lia |].
  cbn [seq flat_map firstn combine fst snd nth app]. f_equal. f_equal.
  rewrite <- seq_shift, flat_map_map.
  cbn [nth]. apply IH; cbn in Hl, Hl2; lia.
Qed.

Lemma shown_cell {A} (rows cols : nat) (d : A) (l l2 : list A) (i j : nat) :
  Plt.shown (Plt.cell_events rows cols d l l2 i j)
  = [nth (cols * i + j) l d; nth (cols * i + j) l2 d].
Proof. reflexivity. Qed.

Lemma positions_cell {A} (rows cols : nat) (d : A) (l l2 : list A) (i j : nat) :
  Plt.positions (Plt.cell_events rows cols d l l2 i j)
  = [2 * Z.of_nat i * Z.of_nat cols + Z.of_nat j + 1;
     (2 * Z.of_nat i + 1) * Z.of_nat cols + Z.of_nat j + 1].
Proof. reflexivity. Qed.

Lemma flat_map_nil {T U} (l : list T) :
  flat_map (fun _ : T => @nil U) l = [].
Proof. induction l; [reflexivity | assumption]. Qed.

(** X16: with a number of rows or of columns that is 0 or negative,
    [grid_imshow] plots nothing and raises nothing, whatever the two
    lists hold, empty lists included. *)
Theorem grid_imshow_empty_grid {A} (grid : Z * Z)
    (imgs_list imgs2_list : list A) :
  fst grid <= 0 \/ snd grid <= 0 ->
  Plt.run (Plt.grid_imshow grid imgs_list imgs2_list) = ([], Ok tt).
Proof.
  intros Hg. unfold Plt.run, Plt.grid_imshow.
  unfold Plt.bind at 1. unfold Plt.lift at 1. rewrite range_upto.
  rewrite (for_in_ok _ _ (fun _ => [])); [rewrite flat_map_nil; reflexivity |].
  intros r Hr log. apply in_map_iff in Hr. destruct Hr as (i & _ & Hi).
  apply in_seq in Hi. destruct Hg as [Hg | Hg]; [lia |].
  unfold Plt.bind at 1. unfold Plt.lift at 1. rewrite range_upto.
  replace (Z.to_nat (snd grid)) with 0%nat by lia.
  cbn. rewrite app_nil_r. reflexivity.
Qed.

Lemma grid_imshow_empty_grid_witness :
  Plt.run (Plt.grid_imshow (0, 3) (@nil Z) (@nil Z)) = ([], Ok tt).
Proof.
  apply (grid_imshow_empty_grid (0, 3) (@nil Z) (@nil Z)).
  left. cbn. lia.
Defined.

(** X15: when each list holds at least rows * cols images,
    [grid_imshow] raises nothing, neither [IndexError] nor the
    [ValueError] of [subplot], and shows the first rows * cols images of
    the two lists, in the order of the lists and alternately one of
    [imgs_list] and its partner of [imgs2_list]; images beyond them are
    not shown. *)
Theorem grid_imshow_shows_pairs {A} (rows cols : nat)
    (imgs_list imgs2_list : list A) :
  (rows * cols <= List.length imgs_list)%nat ->
  (rows * cols <= List.length imgs2_list)%nat ->
  exists log,
    Plt.run (Plt.grid_imshow (Z.of_nat rows, Z.of_nat cols)
                             imgs_list imgs2_list) = (log, Ok tt) /\
    Plt.shown log
    = flat_map (fun p => [fst p; snd p])
               (combine (firstn (rows * cols) imgs_list)
                        (firstn (rows * cols) imgs2_list)).
Proof.
  intros Hl Hl2. destruct (Nat.eq_dec (rows * cols) 0) as [Hz | Hnz].
  - exists []. split.
    + apply grid_imshow_empty_grid. cbn [fst snd]. lia.
    + rewrite Hz. reflexivity.
  - destruct imgs_list as [| d l'] eqn:El; [cbn in Hl; lia |].
    rewrite <- El in *. clear El l'.
    exists (flat_map (fun i =>
              flat_map (Plt.cell_events rows cols d imgs_list imgs2_list i)
                       (seq 0 cols)) (seq 0 rows)).
    split; [apply (grid_imshow_log d); assumption |].
    unfold Plt.shown. rewrite flat_map_nested.
    erewrite flat_map_ext
      by (intros i; rewrite flat_map_nested; reflexivity).
    change (flat_map _ (seq 0 rows))
      with (flat_map (fun i => flat_map (fun j =>
              (fun k => [nth k imgs_list d; nth k imgs2_list d])
                (cols * i + j)%nat) (seq 0 cols)) (seq 0 rows)).
    rewrite grid_enum. apply alternate_firstn; assumption.
Qed.

Lemma grid_imshow_shows_pairs_witness :
  exists log,
    Plt.run (Plt.grid_imshow (Z.of_nat 2, Z.of_nat 2)
                             [10; 11; 12; 13; 14] [20; 21; 22; 23])
    = (log, Ok tt) /\
    Plt.shown log
    = flat_map (fun p => [fst p; snd p])
               (combine (firstn (2 * 2) [10; 11; 12; 13; 14])
                        (firstn (2 * 2) [20; 21; 22; 23])).
Proof.
  apply (grid_imshow_shows_pairs 2 2 [10; 11; 12; 13; 14] [20; 21; 22; 23]);
    cbn; lia.
Defined.


Lemma NoDup_flat_map {T U} (f : T -> list U) (l : list T) :
  NoDup l ->
  (forall x, In x l -> NoDup (f x)) ->
  (forall x y u, In x l -> In y l -> x <> y -> In u (f x) -> ~ In u (f y)) ->
  NoDup (flat_map f l).
Proof.
  intros Hl. induction Hl as [| x l Hx Hl IH]; intros Hf Hd; [constructor |].
  cbn [flat_map]. apply NoDup_app.
  - apply Hf. left. reflexivity.
  - apply IH.
    + intros y Hy. apply Hf. right. exact Hy.
    + intros y z u Hy Hz. apply Hd; right; assumption.
  - intros u Hu Hu'. apply in_flat_map in Hu'. destruct Hu' as (y & Hy & Huy).
    apply (Hd x y u); [left; reflexivity | right; exact Hy | | exact Hu | exact Huy].
    intros ->. contradiction.
Qed.

(** The two positions of the cell in row [i] and column [j]. *)
Lemma cell_positions_spec (cols i j : nat) (p : Z) :
  In p [2 * Z.of_nat i * Z.of_nat cols + Z.of_nat j + 1;
        (2 * Z.of_nat i + 1) * Z.of_nat cols + Z.of_nat j + 1]
  <-> exists b, (b = 0 \/ b = 1) /\
                p = (2 * Z.of_nat i + b) * Z.of_nat cols + Z.of_nat j + 1.
Proof.
  split.
  - intros [<- | [<- | []]]; [exists 0 | exists 1]; split; lia.
  - intros (b & [-> | ->] & ->); [left | right; left]; lia.
Qed.

Lemma position_injective (cols : Z) (u u' j j' : Z) :
  0 <= j < cols -> 0 <= j' < cols ->
  u * cols + j = u' * cols + j' -> u = u' /\ j = j'.
Proof.
  intros Hj Hj' E.
  assert (u = u'); [| subst; lia].
  destruct (Z.lt_trichotomy u u') as [H | [H | H]]; [| exact H |]; nia.
Qed.

Lemma grid_positions_NoDup (rows cols : nat) :
  NoDup (flat_map (fun i => flat_map (fun j =>
           [2 * Z.of_nat i * Z.of_nat cols + Z.of_nat j + 1;
            (2 * Z.of_nat i + 1) * Z.of_nat cols + Z.of_nat j + 1])
           (seq 0 cols)) (seq 0 rows)).
Proof.
  apply NoDup_flat_map; [apply seq_NoDup | |].
  - intros i _. apply NoDup_flat_map; [apply seq_NoDup | |].
    + intros j Hj. apply in_seq in Hj.
      constructor; [| constructor; [intros [] | constructor]].
      intros [E | []]. nia.
    + intros j j' p Hj Hj' Hne Hp Hp'. apply in_seq in Hj, Hj'.
      apply cell_positions_spec in Hp, Hp'.
      destruct Hp as (b & Hb & ->). destruct Hp' as (b' & Hb' & Hp').
      destruct (position_injective (Z.of_nat cols) (2 * Z.of_nat i + b)
                  (2 * Z.of_nat i + b') (Z.of_nat j) (Z.of_nat j'));
        lia.
  - intros i i' p Hi Hi' Hne Hp Hp'.
    apply in_flat_map in Hp, Hp'.
    destruct Hp as (j & Hj & Hp). destruct Hp' as (j' & Hj' & Hp').
    apply in_seq in Hj, Hj'. apply cell_positions_spec in Hp, Hp'.
    destruct Hp as (b & Hb & ->). destruct Hp' as (b' & Hb' & Hp').
    destruct (position_injective (Z.of_nat cols) (2 * Z.of_nat i + b)
                (2 * Z.of_nat i' + b') (Z.of_nat j) (Z.of_nat j'));
      lia.
Qed.

(** X17: when each list holds at least rows * cols images, the subplot
    positions [grid_imshow] asks for are pairwise distinct, lie in
    1 .. 2 * rows * cols and are 2 * rows * cols in number: every position
    of the figure of 2 * rows by cols subplots receives exactly one
    image. *)
Theorem grid_imshow_fills_figure {A} (rows cols : nat)
    (imgs_list imgs2_list : list A) :
  (rows * cols <= List.length imgs_list)%nat ->
  (rows * cols <= List.length imgs2_list)%nat ->
  exists log,
    Plt.run (Plt.grid_imshow (Z.of_nat rows, Z.of_nat cols)
                             imgs_list imgs2_list) = (log, Ok tt) /\
    NoDup (Plt.positions log) /\
    List.length (Plt.positions log) = (2 * rows * cols)%nat /\
    forall p, In p (Plt.positions log) ->
      1 <= p <= 2 * Z.of_nat rows * Z.of_nat cols.
Proof.
  intros Hl Hl2. destruct (Nat.eq_dec (rows * cols) 0) as [Hz | Hnz].
  - exists []. split; [apply grid_imshow_empty_grid; cbn [fst snd]; lia |].
    split; [constructor |]. split; [cbn; lia | intros p []].
  - destruct imgs_list as [| d l'] eqn:El; [cbn in Hl; lia |].
    rewrite <- El in *. clear El l'.
    exists (flat_map (fun i =>
              flat_map (Plt.cell_events rows cols d imgs_list imgs2_list i)
                       (seq 0 cols)) (seq 0 rows)).
    split; [apply (grid_imshow_log d); assumption |].
    assert (Plt.positions
              (flat_map (fun i =>
                 flat_map (Plt.cell_events rows cols d imgs_list imgs2_list i)
                          (seq 0 cols)) (seq 0 rows))
            = flat_map (fun i => flat_map (fun j =>
                [2 * Z.of_nat i * Z.of_nat cols + Z.of_nat j + 1;
                 (2 * Z.of_nat i + 1) * Z.of_nat cols + Z.of_nat j + 1])
                (seq 0 cols)) (seq 0 rows)) as ->.
    { unfold Plt.positions. rewrite flat_map_nested.
      apply flat_map_ext. intros i. rewrite flat_map_nested. reflexivity. }
    split; [apply grid_positions_NoDup |]. split.
    + rewrite (flat_map_constant_length (c := (cols * 2)%nat)).
      * rewrite length_seq. lia.
      * intros i _. rewrite (flat_map_constant_length (c := 2%nat));
          [rewrite length_seq; reflexivity | reflexivity].
    + intros p Hp. apply in_flat_map in Hp. destruct Hp as (i & Hi & Hp).
      apply in_flat_map in Hp. destruct Hp as (j & Hj & Hp).
      apply in_seq in Hi, Hj. apply cell_positions_spec in Hp.
      destruct Hp as (b & Hb & ->). nia.
Qed.

Lemma grid_imshow_fills_figure_witness :
  exists log,
    Plt.run (Plt.grid_imshow (Z.of_nat 2, Z.of_nat 2)
                             [10; 11; 12; 13; 14] [20; 21; 22; 23])
    = (log, Ok tt) /\
    NoDup (Plt.positions log) /\
    List.length (Plt.positions log) = (2 * 2 * 2)%nat /\
    forall p, In p (Plt.positions log) ->
      1 <= p <= 2 * Z.of_nat 2 * Z.of_nat 2.
Proof.
  apply (grid_imshow_fills_figure 2 2 [10; 11; 12; 13; 14] [20; 21; 22; 23]);
    cbn; lia.
Defined.

(* ------------------------------------------------------------------ *)
(** ** Lists that are too short *)

Lemma for_in_fail {A T} (l1 : list T) (x : T) (l2 : list T)
    (body : T -> Plt.P A unit) (ev : T -> list (Plt.event A))
    (part : list (Plt.event A)) (e : exn) :
  (forall y, In y l1 -> forall log, body y log = (log ++ ev y, Ok tt)) ->
  (forall log, body x log = (log ++ part, Raise e)) ->
  forall log,
    Plt.for_in (l1 ++ x :: l2) body log
    = (log ++ flat_map ev l1 ++ part, Raise e).
Proof.
  induction l1 as [| y l1 IH]; intros Hok Hfail log.
  - cbn [app Plt.for_in flat_map]. unfold Plt.bind. rewrite Hfail. reflexivity.
  - cbn [app Plt.for_in flat_map]. unfold Plt.bind.
    rewrite (Hok y (or_introl eq_refl)).
    rewrite IH; [| intros z Hz; apply Hok; right; exact Hz | exact Hfail].
    rewrite <- !app_assoc. reflexivity.
Qed.

Lemma seq_split (n k : nat) :
  (k < n)%nat -> seq 0 n = seq 0 k ++ k :: seq (S k) (n - S k).
Proof.
  intros Hk. replace n with (k + S (n - S k))%nat at 1 by lia.
  rewrite seq_app. reflexivity.
Qed.

Section ShortLists.

Context {A : Type}.
Variables imgs_list imgs2_list : list A.
Variables rows cols : nat.

Let k0 : nat := Nat.min (List.length imgs_list) (List.length imgs2_list).

Let cell (i j : nat) : Plt.P A unit :=
  Plt.bind (Plt.lift (Plt.getitem imgs_list
                        (Z.of_nat cols * Z.of_nat i + Z.of_nat j)))
    (fun img =>
     Plt.bind (Plt.lift (Plt.getitem imgs2_list
                           (Z.of_nat cols * Z.of_nat i + Z.of_nat j)))
       (fun img2 =>
        Plt.bind (Plt.subplot (2 * Z.of_nat rows) (Z.of_nat cols)
                    (2 * Z.of_nat i * Z.of_nat cols + Z.of_nat j + 1))
          (fun _ =>
           Plt.bind (Plt.imshow img)
             (fun _ =>
              Plt.bind (Plt.subplot (2 * Z.of_nat rows) (Z.of_nat cols)
                          ((2 * Z.of_nat i + 1) * Z.of_nat cols
                           + Z.of_nat j + 1))
                (fun _ => Plt.imshow img2))))).

Lemma cell_reached (i j : nat) (log : list (Plt.event A)) :
  (i < rows)%nat -> (j < cols)%nat -> (cols * i + j < k0)%nat ->
  cell i j log
  = (log ++ cell_events_at rows cols imgs_list imgs2_list i j, Ok tt).
Proof.
  intros Hi Hj Hk. unfold k0 in Hk. unfold cell_events_at.
  destruct (nth_error imgs_list (cols * i + j)) as [a |] eqn:Ea;
    [| apply nth_error_None in Ea; lia].
  destruct (nth_error imgs2_list (cols * i + j)) as [b |] eqn:Eb;
    [| apply nth_error_None in Eb; lia].
  unfold cell.
  rewrite (cell_ok a imgs_list imgs2_list rows cols i j log Hi Hj)
    by lia.
  unfold Plt.cell_events.
  rewrite (nth_error_nth _ _ a Ea), (nth_error_nth _ _ a Eb). reflexivity.
Qed.

Lemma cell_missing (i j : nat) (log : list (Plt.event A)) :
  (cols * i + j = k0)%nat -> cell i j log = (log ++ [], Raise IndexError).
Proof.
  intros Hk. unfold k0 in Hk. unfold cell.
  replace (Z.of_nat cols * Z.of_nat i + Z.of_nat j)
    with (Z.of_nat (cols * i + j)) by lia.
  rewrite app_nil_r. unfold Plt.bind, Plt.lift.
  destruct (Nat.le_gt_cases (List.length imgs_list) (cols * i + j))
    as [Hs | Hs].
  - rewrite (getitem_short _ _ Hs). reflexivity.
  - destruct (nth_error imgs_list (cols * i + j)) as [a |] eqn:Ea;
      [| apply nth_error_None in Ea; lia].
    rewrite (getitem_ok a _ _ Hs).
    rewrite getitem_short by lia. reflexivity.
Qed.

(** The events on the figure when the image number [k0] is missing. *)
Lemma grid_imshow_short_log :
  (k0 < rows * cols)%nat ->
  Plt.run (Plt.grid_imshow (Z.of_nat rows, Z.of_nat cols)
                           imgs_list imgs2_list)
  = (flat_map (fun i =>
       flat_map (cell_events_at rows cols imgs_list imgs2_list i)
                (seq 0 cols)) (seq 0 (k0 / cols))
     ++ flat_map (cell_events_at rows cols imgs_list imgs2_list (k0 / cols))
                 (seq 0 (k0 mod cols)),
     Raise IndexError).
Proof.
  intros Hk.
  assert (0 < cols)%nat as Hc by nia.
  pose proof (Nat.div_mod_eq k0 cols) as Hdm.
  pose proof (Nat.mod_upper_bound k0 cols ltac:(lia)) as Hmod.
  assert (k0 / cols < rows)%nat as Hr by (apply Nat.Div0.div_lt_upper_bound; lia).
  unfold Plt.run, Plt.grid_imshow. cbn [fst snd].
  unfold Plt.bind at 1. unfold Plt.lift at 1.
  rewrite range_upto, Nat2Z.id.
  rewrite (seq_split rows (k0 / cols) Hr), map_app. cbn [map].
  rewrite (for_in_fail _ _ _ _
             (fun r => flat_map (cell_events_at rows cols imgs_list imgs2_list
                                   (Z.to_nat r)) (seq 0 cols))
             (flat_map (cell_events_at rows cols imgs_list imgs2_list
                          (k0 / cols)) (seq 0 (k0 mod cols)))
             IndexError).
  - cbn [app]. f_equal. f_equal. rewrite flat_map_map.
    apply flat_map_ext. intros i. rewrite Nat2Z.id. reflexivity.
  - intros r Hin log. apply in_map_iff in Hin. destruct Hin as (i & <- & Hi).
    apply in_seq in Hi. unfold Plt.bind at 1. unfold Plt.lift at 1.
    rewrite range_upto, Nat2Z.id.
    rewrite (for_in_ok _ _ (fun c =>
               cell_events_at rows cols imgs_list imgs2_list i (Z.to_nat c))).
    + rewrite flat_map_map, Nat2Z.id. do 2 f_equal.
      apply flat_map_ext. intros j. rewrite Nat2Z.id. reflexivity.
    + intros c Hcin log'. apply in_map_iff in Hcin.
      destruct Hcin as (j & <- & Hj).
      apply in_seq in Hj. rewrite Nat2Z.id.
      apply (cell_reached i j log'); nia.
  - intros log. unfold Plt.bind at 1. unfold Plt.lift at 1.
    rewrite range_upto, Nat2Z.id.
    rewrite (seq_split cols (k0 mod cols) Hmod), map_app. cbn [map].
    rewrite (for_in_fail _ _ _ _
               (fun c => cell_events_at rows cols imgs_list imgs2_list
                           (k0 / cols) (Z.to_nat c))
               [] IndexError).
    + rewrite app_nil_r, flat_map_map. do 2 f_equal.
      apply flat_map_ext. intros j. rewrite Nat2Z.id. reflexivity.
    + intros c Hcin log'. apply in_map_iff in Hcin.
      destruct Hcin as (j & <- & Hj).
      apply in_seq in Hj. rewrite Nat2Z.id.
      apply (cell_reached (k0 / cols) j log'); nia.
    + intros log'. apply (cell_missing (k0 / cols) (k0 mod cols) log'). lia.
Qed.

End ShortLists.

Lemma shown_cell_at {A} (rows cols : nat) (l l2 : list A) (i j : nat) :
  Plt.shown (cell_events_at rows cols l l2 i j)
  = pair_at l l2 (cols * i + j).
Proof.
  unfold cell_events_at, pair_at.
  destruct (nth_error l (cols * i + j)), (nth_error l2 (cols * i + j));
    reflexivity.
Qed.

Lemma pairs_combine {A} (l : list A) :
  forall l2,
  flat_map (pair_at l l2)
           (seq 0 (Nat.min (List.length l) (List.length l2)))
  = flat_map (fun p => [fst p; snd p]) (combine l l2).
Proof.
  induction l as [| a l IH]; intros l2; [reflexivity |].
  destruct l2 as [| b l2]; [reflexivity |].
  cbn [List.length Nat.min seq flat_map combine fst snd app].
  change (pair_at (a :: l) (b :: l2) 0) with [a; b]. cbn [app].
  do 2 f_equal. rewrite <- seq_shift, flat_map_map. apply IH.
Qed.

(** X18: when a list holds fewer than rows * cols images, [grid_imshow]
    fails with [IndexError]; before it fails it has shown every pair of
    images that the two lists hold, in order, and nothing else. *)
Theorem grid_imshow_short_list {A} (rows cols : nat)
    (imgs_list imgs2_list : list A) :
  (Nat.min (List.length imgs_list) (List.length imgs2_list) < rows * cols)%nat ->
  exists log,
    Plt.run (Plt.grid_imshow (Z.of_nat rows, Z.of_nat cols)
                             imgs_list imgs2_list)
    = (log, Raise IndexError) /\
    Plt.shown log
    = flat_map (fun p => [fst p; snd p]) (combine imgs_list imgs2_list).
Proof.
  intros Hk. eexists. split; [apply grid_imshow_short_log; exact Hk |].
  set (k0 := Nat.min (List.length imgs_list) (List.length imgs2_list)) in *.
  assert (0 < cols)%nat as Hc by nia.
  assert (forall (n i : nat),
            Plt.shown (flat_map (cell_events_at rows cols imgs_list
                                   imgs2_list i) (seq 0 n))
            = flat_map (fun j => pair_at imgs_list imgs2_list
                                   (cols * i + j)%nat) (seq 0 n)) as Erow.
  { intros n i. unfold Plt.shown. rewrite flat_map_nested.
    apply flat_map_ext. intros j. apply shown_cell_at. }
  assert (Plt.shown
            (flat_map (fun i =>
               flat_map (cell_events_at rows cols imgs_list imgs2_list i)
                        (seq 0 cols)) (seq 0 (k0 / cols)))
          = flat_map (fun i => flat_map (fun j =>
              pair_at imgs_list imgs2_list (cols * i + j)%nat) (seq 0 cols))
              (seq 0 (k0 / cols))) as Erows.
  { unfold Plt.shown at 1. rewrite flat_map_nested.
    apply flat_map_ext. intros i. apply Erow. }
  assert (forall l1 l2 : list (Plt.event A),
            Plt.shown (l1 ++ l2) = Plt.shown l1 ++ Plt.shown l2) as Eapp
    by (intros; apply flat_map_app).
  rewrite Eapp, Erows, Erow.
  rewrite (grid_enum (pair_at imgs_list imgs2_list) (k0 / cols) cols).
  rewrite <- (flat_map_seq_shift (pair_at imgs_list imgs2_list)
                (k0 mod cols) (cols * (k0 / cols))).
  rewrite <- flat_map_app.
  replace (k0 / cols * cols)%nat with (cols * (k0 / cols))%nat by lia.
  rewrite <- seq_app, <- Nat.div_mod_eq.
  apply pairs_combine.
Qed.

Lemma grid_imshow_short_list_witness :
  exists log,
    Plt.run (Plt.grid_imshow (Z.of_nat 2, Z.of_nat 2)
                             [10; 11; 12] [20; 21; 22; 23])
    = (log, Raise IndexError) /\
    Plt.shown log
    = flat_map (fun p => [fst p; snd p])
               (combine [10; 11; 12] [20; 21; 22; 23]).
Proof.
  apply (grid_imshow_short_list 2 2 [10; 11; 12] [20; 21; 22; 23]).
  cbn. lia.
Defined.

(* ================================================================== *)
(** * The corners as a set, and the room for the tiles *)

(** X19: for positive strides, (c, r) is among the corners
    [_gridCropCorners] returns exactly when c is a multiple of the column
    stride with 0 <= c < W - tw or, with [include_excess], c = W - tw, and
    likewise r along the rows. *)
Theorem gridCropCorners_membership (W H tw th sw sh : Z)
    (include_excess : bool) (corners : list (Z * Z)) :
  0 < sw -> 0 < sh ->
  _gridCropCorners (W, H) (tw, th) (Some (sw, sh)) include_excess = Ok corners ->
  forall c r,
    In (c, r) corners <->
    ((0 <= c < W - tw /\ c mod sw = 0) \/
     (include_excess = true /\ c = W - tw)) /\
    ((0 <= r < H - th /\ r mod sh = 0) \/
     (include_excess = true /\ r = H - th)).
Proof.
  intros Hsw Hsh E c r.
  destruct (gridCropCorners_offsets _ _ _ _ _ _ _ _ E)
    as (cs & rs & Hcs & Hrs & ->).
  rewrite in_corner_product.
  assert (forall stop step l v, 0 < step ->
            PyRange.range 0 stop step = Ok l ->
            In v (if include_excess then l ++ [stop] else l) <->
            ((0 <= v < stop /\ v mod step = 0) \/
             (include_excess = true /\ v = stop))) as Haxis.
  { intros stop step l v Hs Hl.
    rewrite <- (in_range_pos stop step Hs l v Hl).
    destruct include_excess.
    - rewrite in_app_iff. cbn [In]. intuition congruence.
    - intuition congruence. }
  rewrite (Haxis _ _ _ c Hsw Hcs), (Haxis _ _ _ r Hsh Hrs). reflexivity.
Qed.

Lemma gridCropCorners_membership_witness :
  0 < 4 /\
  forall c r,
    In (c, r) [(0,0);(0,4);(0,6);(4,0);(4,4);(4,6);(6,0);(6,4);(6,6)] <->
    ((0 <= c < 10 - 4 /\ c mod 4 = 0) \/ (true = true /\ c = 10 - 4)) /\
    ((0 <= r < 10 - 4 /\ r mod 4 = 0) \/ (true = true /\ r = 10 - 4)).
Proof.
  split; [lia |].
  apply (gridCropCorners_membership 10 10 4 4 4 4 true); try lia.
  reflexivity.
Defined.

(** X20: the array [stitchCrops] builds has room for every tile: for a
    non-empty sequence of one mode with corners that are not negative,
    each tile ends at or before the last column and the last row of the
    array, under every method name. *)
Theorem stitchCrops_output_holds_tiles (pf : platform)
    (crop_imgs : list Crop) (method : string) :
  crop_imgs <> [] -> same_mode crop_imgs -> corners_ok crop_imgs ->
  exists img_np,
    run (stitch_array (np_int pf) crop_imgs method)
    = (method_warnings method, Ok img_np) /\
    run (stitchCrops pf crop_imgs method)
    = (method_warnings method, fromarray pf img_np) /\
    forall c, In c crop_imgs ->
      crop_x c + crop_w c <= Z.of_nat (snd (Np.shape img_np)) /\
      crop_y c + crop_h c <= Z.of_nat (fst (Np.shape img_np)).
Proof.
  intros Hne Hm Hok.
  destruct (stitch_array_fit (np_int pf) crop_imgs method Hne Hm Hok)
    as (img_np & E & Hsh & _ & _).
  exists img_np. split; [exact E |].
  split; [apply stitchCrops_converts, E |].
  intros c Hin.
  pose proof (crops_fit crop_imgs img_np Hok Hsh) as Hfit.
  rewrite Forall_forall in Hfit. specialize (Hfit c Hin).
  unfold crop_fits in Hfit. lia.
Qed.

Lemma stitchCrops_output_holds_tiles_witness :
  exists img_np,
    run (stitch_array Np.Long32 [crop31; crop11] "average")
    = (method_warnings "average", Ok img_np) /\
    run (stitchCrops long32 [crop31; crop11] "average")
    = (method_warnings "average", fromarray long32 img_np) /\
    forall c, In c [crop31; crop11] ->
      crop_x c + crop_w c <= Z.of_nat (snd (Np.shape img_np)) /\
      crop_y c + crop_h c <= Z.of_nat (fst (Np.shape img_np)).
Proof.
  apply (stitchCrops_output_holds_tiles long32 [crop31; crop11] "average");
    [discriminate | cbn; repeat constructor
     | unfold corners_ok; repeat constructor; cbn; lia].
Defined.
